(** * attach_hotspot_windows.c : remote attach through an injected stub

    A shallow embedding of [byte-buddy-agent/src/main/c/attach_hotspot_windows.c].
    The three C functions are written as programs of a small monad whose
    effects are the calls the C code performs (C library, Win32 API, calls
    through function pointers) and whose failure is C undefined behaviour.
    A program is run against an arbitrary environment that answers the calls;
    properties are stated on the calls issued, their answers and the value
    returned. *)

From Stdlib Require Import String Ascii ZArith List Bool Lia.
From ExtLib Require Import Structures.Monad.
Import ListNotations.
Import MonadNotation.

Local Open Scope Z_scope.
Local Open Scope monad_scope.

(** ** What <windows.h> and the build target supply *)

(** The source fixes neither [MAX_PATH] nor the width of a pointer, and the
    addresses of [GetModuleHandleA] and [GetProcAddress] are those of the
    imports of the injecting image. *)
Class Windows : Type := {
  MAX_PATH : nat;
  sizeof_pointer : nat;
  kernel32_GetModuleHandleA : Z;
  kernel32_GetProcAddress : Z
}.

(** The flag macros the code passes to the Win32 API, kept symbolic. *)
Inductive flag : Type :=
| MEM_COMMIT
| MEM_RELEASE
| PAGE_EXECUTE_READWRITE
| PAGE_READWRITE.

(** [#define ENQUEUE_ERROR 0xffff] and [#define CODE_SIZE 1024]. *)
Definition ENQUEUE_ERROR : Z := 0xffff.
Definition CODE_SIZE : Z := 1024.

Definition NULL : Z := 0.

(** ** Storage *)

(** One [char] of storage; [None] is the indeterminate value of an object
    declared without initialiser. *)
Definition cell : Type := option ascii.

Definition NUL : ascii := Ascii.zero.

(** A [const char *] parameter: [None] is the null pointer, [Some s] points
    to the characters of [s] followed by a terminator. *)
Definition LPCSTR : Type := option string.

(** The characters of the C string found at [Some s]: those before the first
    terminator. *)
Fixpoint c_str (s : string) : list ascii :=
  match s with
  | EmptyString => []
  | String c s' => if Ascii.eqb c NUL then [] else c :: c_str s'
  end.

(** The C string held by a [char] array, if it holds one: the scan stops at
    the first terminator and has no result when it meets an indeterminate
    byte or the end of the array first. *)
Fixpoint read_c_str (field : list cell) : option (list ascii) :=
  match field with
  | [] => None
  | None :: _ => None
  | Some c :: rest =>
      if Ascii.eqb c NUL then Some []
      else match read_c_str rest with
           | Some s => Some (c :: s)
           | None => None
           end
  end.

(** Object representation of a pointer-sized value, least significant byte
    first. *)
Definition byte_of (v : Z) (i : nat) : cell :=
  Some (ascii_of_N (Z.to_N ((v / 2 ^ (8 * Z.of_nat i)) mod 256))).

Definition bytes_of_pointer `{W : Windows} (v : Z) : list cell :=
  map (byte_of v) (seq 0 sizeof_pointer).

(** [typedef struct { ... } EnqueueOperation;] *)
Record EnqueueOperation : Type := {
  GetModuleHandleA : Z;
  GetProcAddress : Z;
  library : list cell;          (* char library[32] *)
  command : list cell;          (* char command[32] *)
  pipe : list cell;             (* char pipe[MAX_PATH] *)
  argument : list (list cell)   (* char argument[4][MAX_PATH] *)
}.

Definition round_up (n a : nat) : nat :=
  match a with
  | O => n
  | _ => (Nat.div (n + a - 1) a * a)%nat
  end.

(** [sizeof(EnqueueOperation)]: two pointers, the seven arrays, and the tail
    padding that keeps the pointers aligned in an array of blocks. *)
Definition offsetof_library `{W : Windows} : nat := (2 * sizeof_pointer)%nat.

Definition sizeof_EnqueueOperation `{W : Windows} : nat :=
  round_up (offsetof_library + 32 + 32 + MAX_PATH + 4 * MAX_PATH) sizeof_pointer.

(** Object representation of a block: what [sizeof(EnqueueOperation)] bytes
    read at its address yield. *)
Definition bytes_of_EnqueueOperation `{W : Windows} (operation : EnqueueOperation)
  : list cell :=
  let fields :=
    bytes_of_pointer (GetModuleHandleA operation)
    ++ bytes_of_pointer (GetProcAddress operation)
    ++ library operation ++ command operation ++ pipe operation
    ++ concat (argument operation) in
  fields ++ repeat None (sizeof_EnqueueOperation - length fields).

(** ** Calls *)

(** What a [lpBuffer] argument points to. *)
Inductive buffer : Type :=
| function_execute_remote_attach
| address_of (object : list cell).

(** The calls the three functions perform.  The first five are reached by
    normal linkage (imports of the image the code was linked into); the last
    three go through a function pointer, whose value the call records. *)
Inductive call : Type :=
| printf (format : string)
| fflush_stdout
| VirtualAllocEx (hProcess lpAddress dwSize : Z) (flAllocationType flProtect : flag)
| WriteProcessMemory (hProcess lpBaseAddress : Z) (lpBuffer : buffer) (nSize : Z)
| VirtualFreeEx (hProcess lpAddress dwSize : Z) (dwFreeType : flag)
| GetModuleHandle_t (fn : Z) (lpModuleName : list cell)
| GetProcAddress_t (fn : Z) (hModule : Z) (lpProcName : list cell)
| JVM_EnqueueOperation_t (fn : Z) (a0 a1 a2 a3 a4 : list cell).

(** ** Programs *)

(** A C function body: it returns, performs a call and continues with the
    answer, or has undefined behaviour. *)
Inductive Prog (A : Type) : Type :=
| Ret (a : A)
| Invoke (c : call) (k : Z -> Prog A)
| Undefined.

Arguments Ret {A} a.
Arguments Invoke {A} c k.
Arguments Undefined {A}.

Fixpoint Prog_bind {A B : Type} (p : Prog A) (f : A -> Prog B) : Prog B :=
  match p with
  | Ret a => f a
  | Invoke c k => Invoke c (fun r => Prog_bind (k r) f)
  | Undefined => Undefined
  end.

#[global] Instance Monad_Prog : Monad Prog := {
  ret := @Ret;
  bind := @Prog_bind
}.

Definition invoke (c : call) : Prog Z := Invoke c Ret.

(** How a run ends. *)
Inductive outcome (A : Type) : Type :=
| Returned (a : A)
| Undefined_behaviour.

Arguments Returned {A} a.
Arguments Undefined_behaviour {A}.

(** Runs a program against an environment [os] with state [S] that answers
    each call; yields the calls with their answers in order, the outcome and
    the final state of the environment. *)
Fixpoint run {A S : Type} (os : call -> S -> Z * S) (p : Prog A) (s : S)
  : list (call * Z) * outcome A * S :=
  match p with
  | Ret a => ([], Returned a, s)
  | Undefined => ([], Undefined_behaviour, s)
  | Invoke c k =>
      let (r, s') := os c s in
      let '(trace, out, s'') := run os (k r) s' in
      ((c, r) :: trace, out, s'')
  end.

(** An environment that answers from a script, and [0] once it is used up. *)
Definition scripted (c : call) (answers : list Z) : Z * list Z :=
  match answers with
  | [] => (0, [])
  | r :: rest => (r, rest)
  end.

(** ** The C library's strcpy on a [char] array *)

(** [strcpy(dst, src)] with [dst] an array of the block: copies the string at
    [src] and its terminator to the start of [dst].  A null [src], or a
    string that does not fit with its terminator, is undefined behaviour. *)
Definition strcpy (dst : list cell) (src : LPCSTR) : Prog (list cell) :=
  match src with
  | None => Undefined
  | Some s =>
      let chars := (c_str s ++ [NUL])%list in
      if (length chars <=? length dst)%nat
      then Ret (map Some chars ++ skipn (length chars) dst)%list
      else Undefined
  end.

(** [char name[n];] without initialiser. *)
Definition uninitialized (n : nat) : list cell := repeat None n.

(** [(DWORD) r] for an [int] or an integer constant: reduction modulo 2^32. *)
Definition DWORD (r : Z) : Z := r mod 2 ^ 32.

(** [(int) d] for a [DWORD]: the two's complement reading of its 32 bits. *)
Definition int_of_DWORD (d : Z) : Z :=
  if d <? 2 ^ 31 then d else d - 2 ^ 32.

(** ** The three functions of the source *)

(** [operation->argument[i]] *)
Definition argument_at (operation : EnqueueOperation) (i : nat) : list cell :=
  nth i (argument operation) [].

(** [DWORD WINAPI execute_remote_attach(LPVOID argument)], on the block its
    argument points to. *)
Definition execute_remote_attach (operation : EnqueueOperation) : Prog Z :=
  _ <- invoke (printf "execute_remote_attach") ;;
  _ <- invoke fflush_stdout ;;
  library' <- invoke (GetModuleHandle_t (GetModuleHandleA operation)
                                        (library operation)) ;;
  if negb (library' =? NULL) then
    JVM_EnqueueOperation <- invoke (GetProcAddress_t (GetProcAddress operation)
                                                     library'
                                                     (command operation)) ;;
    if negb (JVM_EnqueueOperation =? NULL) then
      r <- invoke (JVM_EnqueueOperation_t JVM_EnqueueOperation
                                          (argument_at operation 0)
                                          (argument_at operation 1)
                                          (argument_at operation 2)
                                          (argument_at operation 3)
                                          (pipe operation)) ;;
      ret (DWORD r)
    else ret (DWORD ENQUEUE_ERROR)
  else ret (DWORD ENQUEUE_ERROR).

(** [LPVOID allocate_code(HANDLE process)] *)
Definition allocate_code (process : Z) : Prog Z :=
  _ <- invoke (printf "allocate_code") ;;
  _ <- invoke fflush_stdout ;;
  code <- invoke (VirtualAllocEx process NULL CODE_SIZE
                                 MEM_COMMIT PAGE_EXECUTE_READWRITE) ;;
  if code =? NULL then ret NULL
  else
    written <- invoke (WriteProcessMemory process code
                                          function_execute_remote_attach
                                          CODE_SIZE) ;;
    if written =? 0 then
      _ <- invoke (VirtualFreeEx process NULL CODE_SIZE MEM_RELEASE) ;;
      ret NULL
    else ret code.

(** [argument == NULL ? "" : argument] *)
Definition or_empty (argument : LPCSTR) : LPCSTR :=
  match argument with
  | None => Some ""%string
  | Some _ => argument
  end.

(** Lines 85 to 94 of the source: the local [operation] of
    [allocate_remote_argument] and the assignments and [strcpy] calls that
    fill it. *)
Definition build_operation `{W : Windows}
  (pipe argument0 argument1 argument2 argument3 : LPCSTR)
  : Prog EnqueueOperation :=
  library' <- strcpy (uninitialized 32) (Some "jvm"%string) ;;
  command' <- strcpy (uninitialized 32) (Some "JVM_EnqueueOperation"%string) ;;
  pipe' <- strcpy (uninitialized MAX_PATH) pipe ;;
  argument_0 <- strcpy (uninitialized MAX_PATH) (or_empty argument0) ;;
  argument_1 <- strcpy (uninitialized MAX_PATH) (or_empty argument1) ;;
  argument_2 <- strcpy (uninitialized MAX_PATH) (or_empty argument2) ;;
  argument_3 <- strcpy (uninitialized MAX_PATH) (or_empty argument3) ;;
  ret {| GetModuleHandleA := kernel32_GetModuleHandleA;
         GetProcAddress := kernel32_GetProcAddress;
         library := library';
         command := command';
         pipe := pipe';
         argument := [argument_0; argument_1; argument_2; argument_3] |}.

(** [LPVOID allocate_remote_argument(HANDLE process, const char *pipe,
    const char *argument0, ..., const char *argument3)].  The buffer handed
    to [WriteProcessMemory] is [&process], of [sizeof(process)] bytes. *)
Definition allocate_remote_argument `{W : Windows} (process : Z)
  (pipe argument0 argument1 argument2 argument3 : LPCSTR) : Prog Z :=
  _ <- invoke (printf "allocate_remote_argument") ;;
  _ <- invoke fflush_stdout ;;
  operation <- build_operation pipe argument0 argument1 argument2 argument3 ;;
  allocation <- invoke (VirtualAllocEx process NULL
                                       (Z.of_nat sizeof_EnqueueOperation)
                                       MEM_COMMIT PAGE_READWRITE) ;;
  if allocation =? NULL then ret NULL
  else
    written <- invoke (WriteProcessMemory process allocation
                                          (address_of (bytes_of_pointer process))
                                          (Z.of_nat sizeof_pointer)) ;;
    if written =? 0 then
      _ <- invoke (VirtualFreeEx process NULL
                                 (Z.of_nat sizeof_EnqueueOperation)
                                 MEM_RELEASE) ;;
      ret NULL
    else ret allocation.

(** ** Vocabulary of the properties *)

(** Calls reached through normal linkage, as opposed to calls through a
    function pointer. *)
Definition linked (c : call) : bool :=
  match c with
  | printf _ | fflush_stdout
  | VirtualAllocEx _ _ _ _ _ | WriteProcessMemory _ _ _ _
  | VirtualFreeEx _ _ _ _ => true
  | GetModuleHandle_t _ _ | GetProcAddress_t _ _ _
  | JVM_EnqueueOperation_t _ _ _ _ _ _ => false
  end.

(** Calls that act on the target process. *)
Definition cross_process (c : call) : bool :=
  match c with
  | VirtualAllocEx _ _ _ _ _ | WriteProcessMemory _ _ _ _
  | VirtualFreeEx _ _ _ _ => true
  | _ => false
  end.

(** Calls of the resolved entry point. *)
Definition entry_call (c : call) : bool :=
  match c with
  | JVM_EnqueueOperation_t _ _ _ _ _ _ => true
  | _ => false
  end.

(** The function rejects: it returns NULL, its only failure value, without
    any call on the target process before. *)
Definition rejected_before_remote {S : Type}
  (result : list (call * Z) * outcome Z * S) : Prop :=
  snd (fst result) = Returned NULL /\
  forallb (fun e => negb (cross_process (fst e))) (fst (fst result)) = true.

(** Where the stub, handed the address of [sizeof(EnqueueOperation)] bytes,
    finds the arrays of the block. *)
Definition offsetof_command `{W : Windows} : nat := (offsetof_library + 32)%nat.
Definition offsetof_pipe `{W : Windows} : nat := (offsetof_command + 32)%nat.
Definition offsetof_argument `{W : Windows} (i : nat) : nat :=
  (offsetof_pipe + MAX_PATH + i * MAX_PATH)%nat.

Definition array_at (bytes : list cell) (offset n : nat) : list cell :=
  firstn n (skipn offset bytes).

(** A [char] array of [n] bytes that holds a terminated string. *)
Definition holds_string (n : nat) (field : list cell) : Prop :=
  length field = n /\
  exists s, read_c_str field = Some s /\ (length s < n)%nat.

(** The invariant of the data model on the string fields of a block. *)
Definition block_invariant `{W : Windows} (operation : EnqueueOperation) : Prop :=
  holds_string 32 (library operation) /\
  holds_string 32 (command operation) /\
  holds_string MAX_PATH (pipe operation) /\
  length (argument operation) = 4%nat /\
  forall i, (i < 4)%nat -> holds_string MAX_PATH (argument_at operation i).

(** A build for 64-bit Windows: [MAX_PATH] is 260 and a pointer has 8 bytes;
    the two addresses stand for those of the kernel32 imports. *)
Definition win64 : Windows := {|
  MAX_PATH := 260;
  sizeof_pointer := 8;
  kernel32_GetModuleHandleA := 0x7ff800010000;
  kernel32_GetProcAddress := 0x7ff800020000
|}.

(** A string of [n] characters. *)
Definition xs (n : nat) : string := string_of_list_ascii (repeat "x"%char n).

(** The block of the scenario of the specification: channel "pipe1" and
    arguments "a", "b" and two absent ones, as the builder fills it. *)
Definition scenario_block : EnqueueOperation :=
  match build_operation (W:=win64) (Some "pipe1"%string) (Some "a"%string)
                        (Some "b"%string) None None with
  | Ret operation => operation
  | _ => {| GetModuleHandleA := 0; GetProcAddress := 0; library := [];
            command := []; pipe := []; argument := [] |}
  end.

(** ** Vocabulary of the further properties *)


Definition symbol_lookup (c : call) : bool :=
  match c with GetProcAddress_t _ _ _ => true | _ => false end.

Definition allocation_call (c : call) : bool :=
  match c with VirtualAllocEx _ _ _ _ _ => true | _ => false end.

Definition copy_call (c : call) : bool :=
  match c with WriteProcessMemory _ _ _ _ => true | _ => false end.

Definition release_call (c : call) : bool :=
  match c with VirtualFreeEx _ _ _ _ => true | _ => false end.

Definition count_calls (kind : call -> bool) (trace : list (call * Z)) : nat :=
  length (filter (fun e => kind (fst e)) trace).

(** A string without terminator inside. *)
Definition no_embedded_NUL (s : string) : Prop :=
  Forall (fun c => Ascii.eqb c NUL = false) (list_ascii_of_string s).

(** A pointer argument that [strcpy] can copy into an array of [MAX_PATH]
    bytes: null (where the code replaces it) or a string that fits with its
    terminator. *)
Definition fits `{W : Windows} (a : LPCSTR) : Prop :=
  forall s, a = Some s -> (length (c_str s) < MAX_PATH)%nat.

(** The string the code stores for a pointer argument. *)
Definition stored (a : LPCSTR) : list ascii :=
  match a with
  | None => []
  | Some s => c_str s
  end.

(** ** A reference environment *)

(** One target process as the three Win32 calls see it, after their
    documented contract: the regions allocated in it with their contents,
    the address of the next region, and whether copies into it fail.
    [code] stands for the bytes found at [execute_remote_attach] in the
    injecting image. *)
Record target : Type := {
  regions : list (Z * list cell);
  next_base : Z;
  copy_fails : bool;
  code : list cell
}.

Definition region_at (t : target) (base : Z) : option (list cell) :=
  match find (fun r => fst r =? base) (regions t) with
  | Some r => Some (snd r)
  | None => None
  end.

Definition overwrite (contents bytes : list cell) : list cell :=
  (bytes ++ skipn (length bytes) contents)%list.

(** [VirtualAllocEx] commits a zeroed region at a fresh base; a copy writes
    [nSize] bytes at the base of a region that can hold them; a release frees
    the region whose base is [lpAddress], and only with [dwSize] 0. *)
Definition win32 (c : call) (t : target) : Z * target :=
  match c with
  | VirtualAllocEx _ _ dwSize _ _ =>
      (next_base t,
       {| regions := (next_base t, repeat (Some NUL) (Z.to_nat dwSize))
                     :: regions t;
          next_base := next_base t + 0x10000 * (1 + dwSize / 0x10000);
          copy_fails := copy_fails t;
          code := code t |})
  | WriteProcessMemory _ lpBaseAddress lpBuffer nSize =>
      let bytes := firstn (Z.to_nat nSize)
                          match lpBuffer with
                          | function_execute_remote_attach => code t
                          | address_of object => object
                          end in
      match region_at t lpBaseAddress with
      | Some contents =>
          if copy_fails t || negb (length bytes =? Z.to_nat nSize)%nat
             || (length contents <? length bytes)%nat
          then (0, t)
          else (1,
                {| regions :=
                     map (fun r => if fst r =? lpBaseAddress
                                   then (fst r, overwrite (snd r) bytes)
                                   else r) (regions t);
                   next_base := next_base t;
                   copy_fails := copy_fails t;
                   code := code t |})
      | None => (0, t)
      end
  | VirtualFreeEx _ lpAddress dwSize MEM_RELEASE =>
      match region_at t lpAddress with
      | Some _ =>
          if dwSize =? 0
          then (1,
                {| regions := filter (fun r => negb (fst r =? lpAddress))
                                     (regions t);
                   next_base := next_base t;
                   copy_fails := copy_fails t;
                   code := code t |})
          else (0, t)
      | None => (0, t)
      end
  | _ => (0, t)
  end.

(** A target without regions. *)
Definition fresh_target (fails : bool) : target :=
  {| regions := []; next_base := 0x10000; copy_fails := fails;
     code := repeat (Some "144"%char) 1024 |}.

(** * Properties *)

(** ** Strings and [strcpy] *)

Lemma c_str_no_NUL (s : string) : Forall (fun c => Ascii.eqb c NUL = false) (c_str s).
Proof.
  induction s as [|c s IH]; simpl; [constructor|].
  destruct (Ascii.eqb c NUL) eqn:E; constructor; assumption.
Qed.

(** A string without embedded terminator is its own C string. *)
Lemma c_str_no_embedded (s : string) :
  Forall (fun c => Ascii.eqb c NUL = false) (list_ascii_of_string s) ->
  c_str s = list_ascii_of_string s.
Proof.
  induction s as [|c s IH]; simpl; [reflexivity|].
  intros Hall. inversion Hall as [|? ? Hc Hs]; subst.
  rewrite Hc, IH by assumption. reflexivity.
Qed.

Lemma read_c_str_terminated (cs : list ascii) (rest : list cell) :
  Forall (fun c => Ascii.eqb c NUL = false) cs ->
  read_c_str (map Some (cs ++ [NUL]) ++ rest) = Some cs.
Proof.
  induction 1 as [|c cs Hc _ IH]; simpl; [reflexivity|].
  rewrite Hc, IH. reflexivity.
Qed.

Lemma length_uninitialized (n : nat) : length (uninitialized n) = n.
Proof. apply repeat_length. Qed.

(** [strcpy] returns exactly when the source is not null and fits with its
    terminator; the array then holds the source string. *)
Lemma strcpy_Ret (dst d : list cell) (src : LPCSTR) :
  strcpy dst src = Ret d ->
  exists s, src = Some s /\ (length (c_str s) < length dst)%nat /\
            length d = length dst /\ read_c_str d = Some (c_str s).
Proof.
  unfold strcpy. destruct src as [s|]; [|discriminate].
  destruct (Nat.leb_spec (length (c_str s ++ [NUL])) (length dst)) as [Hle|Hgt];
    [|discriminate].
  intros [= <-]. exists s. rewrite length_app in Hle. simpl in Hle.
  repeat split.
  - lia.
  - rewrite length_app, length_map, length_skipn, length_app. simpl. lia.
  - apply read_c_str_terminated, c_str_no_NUL.
Qed.

Lemma strcpy_fits (dst : list cell) (s : string) :
  (length (c_str s) < length dst)%nat ->
  exists d, strcpy dst (Some s) = Ret d.
Proof.
  intros Hlt. unfold strcpy.
  destruct (Nat.leb_spec (length (c_str s ++ [NUL])) (length dst)) as [Hle|Hgt].
  - eexists. reflexivity.
  - rewrite length_app in Hgt. simpl in Hgt. lia.
Qed.

Lemma strcpy_overrun (dst : list cell) (s : string) :
  (length dst <= length (c_str s))%nat ->
  strcpy dst (Some s) = Undefined.
Proof.
  intros Hge. unfold strcpy.
  destruct (Nat.leb_spec (length (c_str s ++ [NUL])) (length dst)) as [Hle|Hgt].
  - rewrite length_app in Hle. simpl in Hle. lia.
  - reflexivity.
Qed.

Lemma strcpy_cases (dst : list cell) (src : LPCSTR) :
  strcpy dst src = Undefined \/ exists d, strcpy dst src = Ret d.
Proof.
  unfold strcpy. destruct src as [s|]; [|left; reflexivity].
  destruct (_ <=? _)%nat; [right; eexists|left]; reflexivity.
Qed.

Lemma holds_string_strcpy (n : nat) (src : LPCSTR) (d : list cell) :
  strcpy (uninitialized n) src = Ret d -> holds_string n d.
Proof.
  intros E. apply strcpy_Ret in E as (s & _ & Hlt & Hlen & Hread).
  rewrite length_uninitialized in Hlt, Hlen.
  split; [exact Hlen|]. exists (c_str s). split; assumption.
Qed.

Lemma or_empty_Some (a : LPCSTR) (s : string) :
  or_empty a = Some s -> a = None /\ s = ""%string \/ a = Some s.
Proof.
  destruct a; simpl; intros [= <-]; [right | left]; auto.
Qed.

Lemma array_at_app (before field after : list cell) :
  array_at (before ++ field ++ after) (length before) (length field) = field.
Proof.
  unfold array_at. rewrite skipn_app, skipn_all, Nat.sub_diag. simpl.
  rewrite firstn_app, firstn_all, Nat.sub_diag. simpl. apply app_nil_r.
Qed.

Lemma round_up_ge (n a : nat) : (n <= round_up n a)%nat.
Proof.
  unfold round_up. destruct a as [|a]; [lia|].
  pose proof (Nat.div_mod_eq (n + S a - 1) (S a)) as Hdiv.
  pose proof (Nat.mod_upper_bound (n + S a - 1) (S a)) as Hmod.
  nia.
Qed.

Lemma bind_Ret_inv {A B : Type} (p : Prog A) (f : A -> Prog B) (b : B) :
  Prog_bind p f = Ret b -> exists a, p = Ret a /\ f a = Ret b.
Proof.
  destruct p as [a|c k|]; simpl; intros E; try discriminate.
  exists a. split; [reflexivity | assumption].
Qed.

(** ** The builder *)

Section Builder.

Context `{W : Windows}.

(** What the seven [strcpy] calls of the builder did when it returns a
    block. *)
Lemma build_operation_Ret (pipe_name a0 a1 a2 a3 : LPCSTR)
  (operation : EnqueueOperation) :
  build_operation pipe_name a0 a1 a2 a3 = Ret operation ->
  exists l c p x0 x1 x2 x3,
    strcpy (uninitialized 32) (Some "jvm"%string) = Ret l /\
    strcpy (uninitialized 32) (Some "JVM_EnqueueOperation"%string) = Ret c /\
    strcpy (uninitialized MAX_PATH) pipe_name = Ret p /\
    strcpy (uninitialized MAX_PATH) (or_empty a0) = Ret x0 /\
    strcpy (uninitialized MAX_PATH) (or_empty a1) = Ret x1 /\
    strcpy (uninitialized MAX_PATH) (or_empty a2) = Ret x2 /\
    strcpy (uninitialized MAX_PATH) (or_empty a3) = Ret x3 /\
    operation = {| GetModuleHandleA := kernel32_GetModuleHandleA;
                   GetProcAddress := kernel32_GetProcAddress;
                   library := l; command := c; pipe := p;
                   argument := [x0; x1; x2; x3] |}.
Proof.
  unfold build_operation. cbn [bind ret Monad_Prog]. intros E.
  apply bind_Ret_inv in E as (l & El & E).
  apply bind_Ret_inv in E as (c & Ec & E).
  apply bind_Ret_inv in E as (p & Ep & E).
  apply bind_Ret_inv in E as (x0 & E0 & E).
  apply bind_Ret_inv in E as (x1 & E1 & E).
  apply bind_Ret_inv in E as (x2 & E2 & E).
  apply bind_Ret_inv in E as (x3 & E3 & E).
  injection E as <-.
  exists l, c, p, x0, x1, x2, x3. repeat split; assumption.
Qed.

(** The builder performs no call: it returns a block or is undefined. *)
Lemma build_operation_cases (pipe_name a0 a1 a2 a3 : LPCSTR) :
  build_operation pipe_name a0 a1 a2 a3 = Undefined \/
  exists operation, build_operation pipe_name a0 a1 a2 a3 = Ret operation.
Proof.
  unfold build_operation. cbn [bind ret Monad_Prog].
  repeat match goal with
         | |- context [Prog_bind (strcpy ?d ?a) _] =>
             destruct (strcpy_cases d a) as [-> | [? ->]];
             cbn [Prog_bind]; [left; reflexivity|]
         end.
  right. eexists. reflexivity.
Qed.

Lemma build_operation_null_pipe (a0 a1 a2 a3 : LPCSTR) :
  build_operation None a0 a1 a2 a3 = Undefined.
Proof. reflexivity. Qed.

(** The builder returns a block when [pipe] is not null and every string is
    shorter than [MAX_PATH]. *)
Lemma build_operation_defined (p : string) (a0 a1 a2 a3 : LPCSTR) :
  (length (c_str p) < MAX_PATH)%nat ->
  (forall a s, In a [a0; a1; a2; a3] -> a = Some s ->
               (length (c_str s) < MAX_PATH)%nat) ->
  exists operation, build_operation (Some p) a0 a1 a2 a3 = Ret operation.
Proof.
  intros Hp Ha.
  assert (Harg : forall a, In a [a0; a1; a2; a3] ->
                 exists d, strcpy (uninitialized MAX_PATH) (or_empty a) = Ret d).
  { intros a Hin. destruct a as [s|]; simpl or_empty.
    - apply strcpy_fits. rewrite length_uninitialized. eapply Ha; eauto.
    - apply strcpy_fits. rewrite length_uninitialized. simpl. lia. }
  destruct (strcpy_fits (uninitialized MAX_PATH) p) as [dp Ep].
  { rewrite length_uninitialized. exact Hp. }
  destruct (Harg a0) as [d0 E0]; [simpl; auto|].
  destruct (Harg a1) as [d1 E1]; [simpl; auto|].
  destruct (Harg a2) as [d2 E2]; [simpl; auto|].
  destruct (Harg a3) as [d3 E3]; [simpl; auto 6|].
  unfold build_operation. cbn [bind ret Monad_Prog].
  destruct (strcpy_fits (uninitialized 32) "jvm") as [dl El].
  { rewrite length_uninitialized. simpl. lia. }
  destruct (strcpy_fits (uninitialized 32) "JVM_EnqueueOperation") as [dc Ec].
  { rewrite length_uninitialized. simpl. lia. }
  rewrite El. cbn [Prog_bind]. rewrite Ec. cbn [Prog_bind].
  rewrite Ep. cbn [Prog_bind]. rewrite E0. cbn [Prog_bind].
  rewrite E1. cbn [Prog_bind]. rewrite E2. cbn [Prog_bind].
  rewrite E3. cbn [Prog_bind]. eexists. reflexivity.
Qed.

(** A string that does not fit with its terminator makes the builder
    undefined, whichever parameter it is passed as. *)
Lemma build_operation_overrun (pipe_name a0 a1 a2 a3 : LPCSTR)
  (str : string) :
  In (Some str) [pipe_name; a0; a1; a2; a3] ->
  (MAX_PATH <= length (c_str str))%nat ->
  build_operation pipe_name a0 a1 a2 a3 = Undefined.
Proof.
  intros Hin Hlong.
  destruct (build_operation_cases pipe_name a0 a1 a2 a3) as [E | [operation E]];
    [exact E | exfalso].
  apply build_operation_Ret in E
    as (l & c & p & x0 & x1 & x2 & x3 & _ & _ & Ep & E0 & E1 & E2 & E3 & _).
  assert (Hfit : forall a x, strcpy (uninitialized MAX_PATH) a = Ret x ->
                             a <> Some str).
  { intros a x Ex ->. rewrite strcpy_overrun in Ex; [discriminate|].
    rewrite length_uninitialized. exact Hlong. }
  cbn [In] in Hin.
  destruct Hin as [-> | [-> | [-> | [-> | [-> | []]]]]].
  - exact (Hfit _ _ Ep eq_refl).
  - exact (Hfit _ _ E0 eq_refl).
  - exact (Hfit _ _ E1 eq_refl).
  - exact (Hfit _ _ E2 eq_refl).
  - exact (Hfit _ _ E3 eq_refl).
Qed.

(** The arrays of a built block have their declared size and hold a string
    terminated inside the array. *)
Lemma built_block_holds_strings (pipe_name a0 a1 a2 a3 : LPCSTR)
  (operation : EnqueueOperation) :
  build_operation pipe_name a0 a1 a2 a3 = Ret operation ->
  block_invariant operation.
Proof.
  intros E.
  apply build_operation_Ret in E
    as (l & c & p & x0 & x1 & x2 & x3 & El & Ec & Ep & E0 & E1 & E2 & E3 & ->).
  apply holds_string_strcpy in El, Ec, Ep, E0, E1, E2, E3.
  unfold block_invariant, argument_at. cbn [library command pipe argument].
  split; [exact El|]. split; [exact Ec|]. split; [exact Ep|].
  split; [reflexivity|].
  intros i Hi.
  destruct i as [|[|[|[|i]]]]; cbn [nth]; try assumption. lia.
Qed.

(** C8. Every block the builder returns satisfies the invariant of the data
    model: [library], [command], [pipe] and the four [argument] arrays each
    have their declared size and hold a string whose terminator lies inside
    the array.  The builder returns such a block for every [pipe] that is
    not null and fits with its terminator, and arguments that are null or
    fit with theirs. *)
Theorem build_operation_invariant (pipe_name a0 a1 a2 a3 : LPCSTR) :
  (forall operation,
      build_operation pipe_name a0 a1 a2 a3 = Ret operation ->
      block_invariant operation) /\
  (forall p,
      pipe_name = Some p ->
      (length (c_str p) < MAX_PATH)%nat ->
      (forall a s, In a [a0; a1; a2; a3] -> a = Some s ->
                   (length (c_str s) < MAX_PATH)%nat) ->
      exists operation,
        build_operation pipe_name a0 a1 a2 a3 = Ret operation /\
        block_invariant operation).
Proof.
  split.
  - apply built_block_holds_strings.
  - intros p -> Hp Ha.
    destruct (build_operation_defined p a0 a1 a2 a3 Hp Ha) as [operation E].
    exists operation. split; [exact E|].
    exact (built_block_holds_strings _ _ _ _ _ _ E).
Qed.

(** C7. In every block the builder returns, the array [argument[i]] holds the
    string passed as the i-th argument, and the empty string when that
    argument is the null pointer: the four arrays are all there and each
    holds a terminated string. *)
Theorem absent_argument_is_empty_string (pipe_name a0 a1 a2 a3 : LPCSTR)
  (operation : EnqueueOperation) :
  build_operation pipe_name a0 a1 a2 a3 = Ret operation ->
  length (argument operation) = 4%nat /\
  forall i a, nth_error [a0; a1; a2; a3] i = Some a ->
    read_c_str (argument_at operation i)
    = Some (match a with None => [] | Some s => c_str s end).
Proof.
  intros E.
  apply build_operation_Ret in E
    as (l & c & p & x0 & x1 & x2 & x3 & _ & _ & _ & E0 & E1 & E2 & E3 & ->).
  split; [reflexivity|].
  assert (Hone : forall a x, strcpy (uninitialized MAX_PATH) (or_empty a) = Ret x ->
            read_c_str x = Some (match a with None => [] | Some s => c_str s end)).
  { intros a x Ex. apply strcpy_Ret in Ex as (s & Hs & _ & _ & ->).
    apply or_empty_Some in Hs as [[-> ->] | ->]; reflexivity. }
  intros i a Hi. unfold argument_at. cbn [argument].
  destruct i as [|[|[|[|i]]]]; cbn [nth_error nth] in *;
    try (injection Hi as <-); auto.
  destruct i; discriminate.
Qed.

Lemma length_bytes_of_pointer (v : Z) :
  length (bytes_of_pointer v) = sizeof_pointer.
Proof. unfold bytes_of_pointer. rewrite length_map, length_seq. reflexivity. Qed.

(** The fields of a built block, laid out in declaration order, take the
    bytes counted by [sizeof_EnqueueOperation] before padding. *)
Lemma length_bytes_of_EnqueueOperation (pipe_name a0 a1 a2 a3 : LPCSTR)
  (operation : EnqueueOperation) :
  build_operation pipe_name a0 a1 a2 a3 = Ret operation ->
  length (bytes_of_EnqueueOperation operation) = sizeof_EnqueueOperation.
Proof.
  intros E.
  apply build_operation_Ret in E
    as (l & c & p & x0 & x1 & x2 & x3 & El & Ec & Ep & E0 & E1 & E2 & E3 & ->).
  apply holds_string_strcpy in El as [Ll _], Ec as [Lc _], Ep as [Lp _],
    E0 as [L0 _], E1 as [L1 _], E2 as [L2 _], E3 as [L3 _].
  unfold bytes_of_EnqueueOperation.
  cbn [GetModuleHandleA GetProcAddress library command pipe argument concat].
  rewrite length_app, repeat_length.
  repeat rewrite length_app. repeat rewrite length_bytes_of_pointer.
  rewrite Ll, Lc, Lp, L0, L1, L2, L3. cbn [length].
  unfold sizeof_EnqueueOperation, offsetof_library.
  pose proof (round_up_ge (2 * sizeof_pointer + 32 + 32 + MAX_PATH + 4 * MAX_PATH)
                          sizeof_pointer).
  lia.
Qed.

(** The part of the round trip that holds: read back from the bytes of the
    block built in local memory, at the offsets of the layout, [pipe] and
    the four [argument] arrays hold the strings passed in (the empty string
    for a null argument). *)
Lemma built_block_round_trip (p : string) (a0 a1 a2 a3 : LPCSTR)
  (operation : EnqueueOperation) :
  build_operation (Some p) a0 a1 a2 a3 = Ret operation ->
  read_c_str (array_at (bytes_of_EnqueueOperation operation) offsetof_pipe MAX_PATH)
  = Some (c_str p) /\
  forall i a, nth_error [a0; a1; a2; a3] i = Some a ->
    read_c_str (array_at (bytes_of_EnqueueOperation operation)
                         (offsetof_argument i) MAX_PATH)
    = Some (match a with None => [] | Some s => c_str s end).
Proof.
  intros E.
  apply build_operation_Ret in E
    as (l & c & x & x0 & x1 & x2 & x3 & El & Ec & Ep & E0 & E1 & E2 & E3 & ->).
  assert (Hone : forall a d, strcpy (uninitialized MAX_PATH) (or_empty a) = Ret d ->
            read_c_str d = Some (match a with None => [] | Some s => c_str s end)).
  { intros a d Ed. apply strcpy_Ret in Ed as (s & Hs & _ & _ & ->).
    apply or_empty_Some in Hs as [[-> ->] | ->]; reflexivity. }
  apply Hone in E0 as R0, E1 as R1, E2 as R2, E3 as R3.
  apply strcpy_Ret in Ep as (p' & [= <-] & _ & Lp & Rp).
  apply holds_string_strcpy in El as [Ll _], Ec as [Lc _],
    E0 as [L0 _], E1 as [L1 _], E2 as [L2 _], E3 as [L3 _].
  rewrite length_uninitialized in Lp.
  unfold bytes_of_EnqueueOperation.
  cbn [GetModuleHandleA GetProcAddress library command pipe argument concat].
  set (g := bytes_of_pointer kernel32_GetModuleHandleA).
  set (f := bytes_of_pointer kernel32_GetProcAddress).
  set (padding := repeat None _).
  assert (Lg : length g = sizeof_pointer) by apply length_bytes_of_pointer.
  assert (Lf : length f = sizeof_pointer) by apply length_bytes_of_pointer.
  rewrite app_nil_r.
  split.
  - replace ((g ++ f ++ l ++ c ++ x ++ x0 ++ x1 ++ x2 ++ x3) ++ padding)
      with ((g ++ f ++ l ++ c) ++ x ++ (x0 ++ x1 ++ x2 ++ x3 ++ padding))
      by (repeat rewrite <- app_assoc; reflexivity).
    replace offsetof_pipe with (length (g ++ f ++ l ++ c))
      by (repeat rewrite length_app; unfold offsetof_pipe, offsetof_command,
          offsetof_library; lia).
    rewrite <- Lp at 1. rewrite array_at_app. exact Rp.
  - intros i a Hi.
    destruct i as [|[|[|[|i]]]]; cbn [nth_error] in Hi;
      [injection Hi as <- .. | destruct i; discriminate].
    + replace ((g ++ f ++ l ++ c ++ x ++ x0 ++ x1 ++ x2 ++ x3) ++ padding)
        with ((g ++ f ++ l ++ c ++ x) ++ x0 ++ (x1 ++ x2 ++ x3 ++ padding))
        by (repeat rewrite <- app_assoc; reflexivity).
      replace (offsetof_argument 0) with (length (g ++ f ++ l ++ c ++ x))
        by (repeat rewrite length_app; unfold offsetof_argument, offsetof_pipe,
            offsetof_command, offsetof_library; lia).
      rewrite <- L0 at 1. rewrite array_at_app. exact R0.
    + replace ((g ++ f ++ l ++ c ++ x ++ x0 ++ x1 ++ x2 ++ x3) ++ padding)
        with ((g ++ f ++ l ++ c ++ x ++ x0) ++ x1 ++ (x2 ++ x3 ++ padding))
        by (repeat rewrite <- app_assoc; reflexivity).
      replace (offsetof_argument 1) with (length (g ++ f ++ l ++ c ++ x ++ x0))
        by (repeat rewrite length_app; unfold offsetof_argument, offsetof_pipe,
            offsetof_command, offsetof_library; lia).
      rewrite <- L1 at 1. rewrite array_at_app. exact R1.
    + replace ((g ++ f ++ l ++ c ++ x ++ x0 ++ x1 ++ x2 ++ x3) ++ padding)
        with ((g ++ f ++ l ++ c ++ x ++ x0 ++ x1) ++ x2 ++ (x3 ++ padding))
        by (repeat rewrite <- app_assoc; reflexivity).
      replace (offsetof_argument 2)
        with (length (g ++ f ++ l ++ c ++ x ++ x0 ++ x1))
        by (repeat rewrite length_app; unfold offsetof_argument, offsetof_pipe,
            offsetof_command, offsetof_library; lia).
      rewrite <- L2 at 1. rewrite array_at_app. exact R2.
    + replace ((g ++ f ++ l ++ c ++ x ++ x0 ++ x1 ++ x2 ++ x3) ++ padding)
        with ((g ++ f ++ l ++ c ++ x ++ x0 ++ x1 ++ x2) ++ x3 ++ padding)
        by (repeat rewrite <- app_assoc; reflexivity).
      replace (offsetof_argument 3)
        with (length (g ++ f ++ l ++ c ++ x ++ x0 ++ x1 ++ x2))
        by (repeat rewrite length_app; unfold offsetof_argument, offsetof_pipe,
            offsetof_command, offsetof_library; lia).
      rewrite <- L3 at 1. rewrite array_at_app. exact R3.
Qed.

End Builder.

(** The block of the scenario of the specification, built for 64-bit
    Windows, satisfies the invariant. *)
Lemma build_operation_invariant_witness :
  exists operation,
    build_operation (W:=win64) (Some "pipe1"%string) (Some "a"%string)
                    (Some "b"%string) None None = Ret operation /\
    block_invariant (W:=win64) operation.
Proof.
  apply (proj2 (build_operation_invariant (W:=win64) (Some "pipe1"%string)
                  (Some "a"%string) (Some "b"%string) None None)
               "pipe1"%string eq_refl).
  - apply Nat.ltb_lt. vm_compute. reflexivity.
  - intros a s Hin ->. cbn [In] in Hin.
    destruct Hin as [E|[E|[E|[E|[]]]]]; try discriminate;
      injection E as <-; apply Nat.ltb_lt; vm_compute; reflexivity.
Defined.

Lemma absent_argument_is_empty_string_witness :
  exists operation,
    build_operation (W:=win64) (Some "pipe1"%string) (Some "a"%string)
                    None (Some "c"%string) None = Ret operation /\
    read_c_str (argument_at operation 1) = Some [] /\
    read_c_str (argument_at operation 3) = Some [].
Proof.
  eexists. split; [vm_compute; reflexivity|].
  pose proof (absent_argument_is_empty_string (W:=win64) (Some "pipe1"%string)
                (Some "a"%string) None (Some "c"%string) None _ eq_refl)
    as [_ Hargs].
  split; [exact (Hargs 1%nat None eq_refl) | exact (Hargs 3%nat None eq_refl)].
Defined.

(** ** The stub routine *)

Lemma DWORD_ENQUEUE_ERROR : DWORD ENQUEUE_ERROR = ENQUEUE_ERROR.
Proof. reflexivity. Qed.

Lemma DWORD_bits (r i : Z) : 0 <= i < 32 -> Z.testbit (DWORD r) i = Z.testbit r i.
Proof. intros Hi. unfold DWORD. apply Z.mod_pow2_bits_low. lia. Qed.

Lemma int_of_DWORD_DWORD (r : Z) :
  - 2 ^ 31 <= r < 2 ^ 31 -> int_of_DWORD (DWORD r) = r.
Proof.
  intros Hr. unfold int_of_DWORD, DWORD.
  destruct (Z_lt_le_dec r 0) as [Hneg|Hpos].
  - replace (r mod 2 ^ 32) with (r + 2 ^ 32).
    + destruct (Z.ltb_spec (r + 2 ^ 32) (2 ^ 31)); lia.
    + apply Z.mod_unique with (q := -1); lia.
  - rewrite Z.mod_small by lia.
    destruct (Z.ltb_spec r (2 ^ 31)); lia.
Qed.

(** Destructs the answers of the environment met in a run, and the tests
    the code makes on them. *)
Ltac answer os :=
  repeat match goal with
         | H : context [os ?c ?s] |- _ =>
             let r := fresh "r" in let s' := fresh "s" in
             destruct (os c s) as [r s']
         | |- context [os ?c ?s] =>
             let r := fresh "r" in let s' := fresh "s" in
             destruct (os c s) as [r s']
         | H : context [?r =? ?n] |- _ => destruct (Z.eqb_spec r n)
         | |- context [?r =? ?n] => destruct (Z.eqb_spec r n)
         end; cbn [negb] in *.

Ltac run_of H f os :=
  unfold f in H; cbn [bind ret Monad_Prog Prog_bind invoke run] in H;
  answer os; cbn [bind ret Monad_Prog Prog_bind invoke run] in H;
  answer os; cbn [bind ret Monad_Prog Prog_bind invoke run] in H;
  answer os; cbn [bind ret Monad_Prog Prog_bind invoke run] in H;
  answer os; cbn [bind ret Monad_Prog Prog_bind invoke run] in H;
  answer os; injection H as <- <- <-.

Section Stub.

(** An arbitrary environment: the target process the stub runs in. *)
Context {S : Type} (os : call -> S -> Z * S).

(** C4. When the module lookup through the first function pointer of the
    block answers NULL for the [library] field, or the symbol lookup through
    the second answers NULL for the [command] field, the stub returns
    [ENQUEUE_ERROR] and has not called any entry point. *)
Theorem lookup_failure_returns_ENQUEUE_ERROR (s s' : S) (operation : EnqueueOperation)
  (trace : list (call * Z)) (out : outcome Z) :
  run os (execute_remote_attach operation) s = (trace, out, s') ->
  In (GetModuleHandle_t (GetModuleHandleA operation) (library operation), NULL)
     trace \/
  (exists h, In (GetProcAddress_t (GetProcAddress operation) h
                                  (command operation), NULL) trace) ->
  out = Returned ENQUEUE_ERROR /\
  forallb (fun e => negb (entry_call (fst e))) trace = true.
Proof.
  intros Hrun Hfail.
  run_of Hrun execute_remote_attach os.
  all: cbn [In] in Hfail; cbn [forallb fst entry_call negb andb].
  all: try (split; reflexivity).
  exfalso. destruct Hfail as [Hm | [h Hs]];
    intuition (try discriminate; congruence).
Qed.

(** C5. When the module lookup answers a handle [h] other than NULL and the
    symbol lookup in [h] answers an address [entry] other than NULL, the
    last call of the stub is the call of [entry] with [argument[0]] to
    [argument[3]] and then [pipe] of the block, no entry point is called
    before, and the stub returns the [int] answer [r] of that call as a
    DWORD: the same 32 bits, from which [r] is read back. *)
Theorem resolved_entry_point_result (s s' : S) (operation : EnqueueOperation)
  (trace : list (call * Z)) (out : outcome Z) (h entry : Z) :
  run os (execute_remote_attach operation) s = (trace, out, s') ->
  In (GetModuleHandle_t (GetModuleHandleA operation) (library operation), h)
     trace ->
  h <> NULL ->
  In (GetProcAddress_t (GetProcAddress operation) h (command operation), entry)
     trace ->
  entry <> NULL ->
  exists r before,
    trace = before ++
            [(JVM_EnqueueOperation_t entry
                (argument_at operation 0) (argument_at operation 1)
                (argument_at operation 2) (argument_at operation 3)
                (pipe operation), r)] /\
    forallb (fun e => negb (entry_call (fst e))) before = true /\
    out = Returned (DWORD r) /\
    (forall i, 0 <= i < 32 -> Z.testbit (DWORD r) i = Z.testbit r i) /\
    (0 <= r < 2 ^ 32 -> DWORD r = r) /\
    (- 2 ^ 31 <= r < 2 ^ 31 -> int_of_DWORD (DWORD r) = r).
Proof.
  intros Hrun Hm Hh He Hentry.
  run_of Hrun execute_remote_attach os.
  all: cbn [In] in Hm, He.
  - exfalso. intuition (try discriminate; congruence).
  - exfalso. intuition (try discriminate; congruence).
  - assert (r1 = h) by (intuition (try discriminate; congruence)). subst r1.
    assert (r2 = entry) by (intuition (try discriminate; congruence)). subst r2.
    eexists _, [_; _; _; _]. split; [reflexivity|].
    split; [reflexivity|]. split; [reflexivity|].
    split; [apply DWORD_bits|].
    split; [intros Hr; apply Z.mod_small; exact Hr | apply int_of_DWORD_DWORD].
Qed.

(** C6 (as the code behaves). Whatever the block and the environment, the
    first two calls of the stub are [printf], with a string literal of the
    image it was compiled in, and [fflush] on the global [stdout]: both are
    reached by normal linkage and not through a function pointer of the
    block, so not every call of the stub goes through the block. *)
Theorem execute_remote_attach_calls_linked_imports (s : S) (operation : EnqueueOperation) :
  exists r1 r2 rest,
    fst (fst (run os (execute_remote_attach operation) s))
    = (printf "execute_remote_attach", r1) :: (fflush_stdout, r2) :: rest /\
    linked (printf "execute_remote_attach") = true /\
    linked fflush_stdout = true /\
    forallb (fun e => negb (linked (fst e)))
            (fst (fst (run os (execute_remote_attach operation) s))) = false.
Proof.
  destruct (run os (execute_remote_attach operation) s) as [[trace out] s']
    eqn:Hrun.
  run_of Hrun execute_remote_attach os; cbn [fst];
    eexists _, _, _; repeat split; reflexivity.
Qed.

End Stub.

(** The module lookup fails in the first run, the symbol lookup in the
    second. *)
Lemma lookup_failure_returns_ENQUEUE_ERROR_witness :
  snd (fst (run scripted (execute_remote_attach scenario_block) [0; 0; 0]))
  = Returned ENQUEUE_ERROR /\
  snd (fst (run scripted (execute_remote_attach scenario_block)
                [0; 0; 0x7ff900000000; 0]))
  = Returned ENQUEUE_ERROR.
Proof.
  split.
  - refine (proj1 (lookup_failure_returns_ENQUEUE_ERROR scripted [0; 0; 0] []
                     scenario_block _ _ eq_refl _)).
    left. cbn [In]. right. right. left. reflexivity.
  - refine (proj1 (lookup_failure_returns_ENQUEUE_ERROR scripted
                     [0; 0; 0x7ff900000000; 0] []
                     scenario_block _ _ eq_refl _)).
    right. exists 0x7ff900000000. cbn [In].
    right. right. right. left. reflexivity.
Defined.

Lemma resolved_entry_point_result_witness :
  snd (fst (run scripted (execute_remote_attach scenario_block)
                [0; 0; 0x7ff900000000; 0x7ff900001234; -1]))
  = Returned 0xffffffff.
Proof.
  destruct (resolved_entry_point_result scripted
              [0; 0; 0x7ff900000000; 0x7ff900001234; -1] []
              scenario_block _ _ 0x7ff900000000 0x7ff900001234 eq_refl)
    as (r & before & Htrace & _ & Hout & _).
  - cbn [In]. right. right. left. reflexivity.
  - discriminate.
  - cbn [In]. right. right. right. left. reflexivity.
  - discriminate.
  - apply (app_inj_tail [_; _; _; _] before) in Htrace as [_ Hr].
    injection Hr as <-. exact Hout.
Defined.

(** C9. The entry point can answer 0xffff: a run in which both lookups
    succeed and the entry point answers that value returns [ENQUEUE_ERROR],
    as does a run in which the module lookup fails.  For every block both
    runs exist, so the value returned does not tell them apart. *)
Theorem success_indistinguishable_from_lookup_failure :
  exists r : Z,
    r = 0xffff /\
    (forall (S : Type) (os : call -> S -> Z * S) (s s' : S)
            (operation : EnqueueOperation) (trace : list (call * Z))
            (out : outcome Z) (c : call),
        run os (execute_remote_attach operation) s = (trace, out, s') ->
        entry_call c = true -> In (c, r) trace ->
        out = Returned ENQUEUE_ERROR) /\
    (forall operation : EnqueueOperation,
        exists resolved failed : list Z,
          snd (fst (run scripted (execute_remote_attach operation) resolved))
          = Returned ENQUEUE_ERROR /\
          existsb (fun e => entry_call (fst e))
            (fst (fst (run scripted (execute_remote_attach operation) resolved)))
          = true /\
          snd (fst (run scripted (execute_remote_attach operation) failed))
          = Returned ENQUEUE_ERROR /\
          existsb (fun e => entry_call (fst e))
            (fst (fst (run scripted (execute_remote_attach operation) failed)))
          = false).
Proof.
  exists 0xffff. split; [reflexivity|]. split.
  - intros S os s s' operation trace out c Hrun Hc Hin.
    run_of Hrun execute_remote_attach os; cbn [In] in Hin.
    + exfalso. destruct Hin as [[= <- _]|[[= <- _]|[[= <- _]|[]]]];
        discriminate.
    + exfalso. destruct Hin as [[= <- _]|[[= <- _]|[[= <- _]|[[= <- _]|[]]]]];
        discriminate.
    + destruct Hin as [[= <- _]|[[= <- _]|[[= <- _]|[[= <- _]|[[= _ ->]|[]]]]]];
        try discriminate.
      reflexivity.
  - intros operation. exists [0; 0; 1; 1; 0xffff], [0; 0; 0].
    repeat split; reflexivity.
Qed.

(** ** The injector *)

Section Injector.

(** An arbitrary environment: the operating system and the target process. *)
Context `{W : Windows} {S : Type} (os : call -> S -> Z * S).

(** The run of [allocate_remote_argument] when the builder is undefined:
    only the two calls made before it. *)
Lemma run_allocate_remote_argument_undefined (s : S) (process : Z)
  (pipe_name a0 a1 a2 a3 : LPCSTR) :
  build_operation pipe_name a0 a1 a2 a3 = Undefined ->
  exists r1 r2 s',
    run os (allocate_remote_argument process pipe_name a0 a1 a2 a3) s
    = ([(printf "allocate_remote_argument", r1); (fflush_stdout, r2)],
       Undefined_behaviour, s').
Proof.
  intros E. unfold allocate_remote_argument.
  cbn [bind ret Monad_Prog Prog_bind invoke run].
  answer os. rewrite E. cbn [Prog_bind run].
  eexists _, _, _. reflexivity.
Qed.

(** C2 (as the code behaves). The function has no length check: a string of [MAX_PATH]
    characters or more, passed as [pipe] or as one of the four arguments,
    overruns its array in [strcpy], which is undefined behaviour; the function
    returns no failure value, and the only calls made before are [printf] and
    [fflush], none on the target process. *)
Theorem overlong_string_overruns_unchecked (s : S) (process : Z)
  (pipe_name a0 a1 a2 a3 : LPCSTR) (str : string) :
  In (Some str) [pipe_name; a0; a1; a2; a3] ->
  (MAX_PATH <= length (c_str str))%nat ->
  exists r1 r2 s',
    run os (allocate_remote_argument process pipe_name a0 a1 a2 a3) s
    = ([(printf "allocate_remote_argument", r1); (fflush_stdout, r2)],
       Undefined_behaviour, s').
Proof.
  intros Hin Hlong. apply run_allocate_remote_argument_undefined.
  exact (build_operation_overrun _ _ _ _ _ str Hin Hlong).
Qed.

(** The failed copy in [allocate_code].  When [VirtualAllocEx] answers an
    address [code] other than NULL and [WriteProcessMemory] to [code] answers
    0, the function returns NULL after one [VirtualFreeEx] call, whose
    [lpAddress] is NULL and whose [dwSize] is [CODE_SIZE]: no call frees at
    [code]. *)
Lemma allocate_code_frees_at_NULL (s s' : S) (process code : Z)
  (trace : list (call * Z)) (out : outcome Z) :
  run os (allocate_code process) s = (trace, out, s') ->
  In (VirtualAllocEx process NULL CODE_SIZE MEM_COMMIT PAGE_EXECUTE_READWRITE,
      code) trace ->
  code <> NULL ->
  In (WriteProcessMemory process code function_execute_remote_attach CODE_SIZE,
      0) trace ->
  out = Returned NULL /\
  (exists before r,
      trace = before ++ [(VirtualFreeEx process NULL CODE_SIZE MEM_RELEASE, r)]) /\
  (forall hProcess lpAddress dwSize dwFreeType r,
      In (VirtualFreeEx hProcess lpAddress dwSize dwFreeType, r) trace ->
      lpAddress = NULL /\ lpAddress <> code).
Proof.
  intros Hrun Halloc Hcode Hwrite.
  run_of Hrun allocate_code os; cbn [In] in Halloc, Hwrite.
  - exfalso. intuition (try discriminate; congruence).
  - split; [reflexivity|]. split.
    + eexists [_; _; _; _], _. reflexivity.
    + intros hProcess lpAddress dwSize dwFreeType freed Hin. cbn [In] in Hin.
      destruct Hin as [E|[E|[E|[E|[E|[]]]]]]; try discriminate.
      injection E as <- <- <- <- <-. split; [reflexivity|].
      intros <-. apply Hcode. reflexivity.
  - exfalso. intuition (try discriminate; congruence).
Qed.

(** The same on the path of [allocate_remote_argument]; the [dwSize] passed
    to [VirtualFreeEx] is [sizeof(EnqueueOperation)]. *)
Lemma allocate_remote_argument_frees_at_NULL (s s' : S) (process allocation : Z)
  (pipe_name a0 a1 a2 a3 : LPCSTR)
  (trace : list (call * Z)) (out : outcome Z) :
  run os (allocate_remote_argument process pipe_name a0 a1 a2 a3) s
  = (trace, out, s') ->
  In (VirtualAllocEx process NULL (Z.of_nat sizeof_EnqueueOperation)
                     MEM_COMMIT PAGE_READWRITE, allocation) trace ->
  allocation <> NULL ->
  In (WriteProcessMemory process allocation
                         (address_of (bytes_of_pointer process))
                         (Z.of_nat sizeof_pointer), 0) trace ->
  out = Returned NULL /\
  (exists before r,
      trace = before ++ [(VirtualFreeEx process NULL
                                        (Z.of_nat sizeof_EnqueueOperation)
                                        MEM_RELEASE, r)]) /\
  (forall hProcess lpAddress dwSize dwFreeType r,
      In (VirtualFreeEx hProcess lpAddress dwSize dwFreeType, r) trace ->
      lpAddress = NULL /\ lpAddress <> allocation).
Proof.
  intros Hrun Halloc Hcode Hwrite.
  unfold allocate_remote_argument in Hrun.
  cbn [bind ret Monad_Prog Prog_bind invoke run] in Hrun.
  destruct (build_operation_cases pipe_name a0 a1 a2 a3) as [E | [operation E]];
    rewrite E in Hrun; cbn [Prog_bind run] in Hrun.
  - answer os. injection Hrun as <- <- <-. cbn [In] in Halloc.
    exfalso. intuition discriminate.
  - answer os; cbn [bind ret Monad_Prog Prog_bind invoke run] in Hrun.
    all: answer os; cbn [bind ret Monad_Prog Prog_bind invoke run] in Hrun.
    all: answer os; injection Hrun as <- <- <-; cbn [In] in Halloc, Hwrite.
    + exfalso. intuition (try discriminate; congruence).
    + split; [reflexivity|]. split.
      * eexists [_; _; _; _], _. reflexivity.
      * intros hProcess lpAddress dwSize dwFreeType freed Hin. cbn [In] in Hin.
        destruct Hin as [E'|[E'|[E'|[E'|[E'|[]]]]]]; try discriminate.
        injection E' as <- <- <- <- <-. split; [reflexivity|].
        intros <-. apply Hcode. reflexivity.
    + exfalso. intuition (try discriminate; congruence).
Qed.

(** C3 (as the code behaves).  On both paths, [allocate_code] and
    [allocate_remote_argument], when the allocation in the target succeeds
    and the copy fails, the function returns NULL after a single
    [VirtualFreeEx] call whose [lpAddress] is NULL: the address just
    allocated is passed to no [VirtualFreeEx] call. *)
Theorem copy_failure_frees_at_NULL (s s' : S) (process allocated : Z)
  (trace : list (call * Z)) (out : outcome Z) :
  allocated <> NULL ->
  (run os (allocate_code process) s = (trace, out, s') /\
   In (VirtualAllocEx process NULL CODE_SIZE MEM_COMMIT PAGE_EXECUTE_READWRITE,
       allocated) trace /\
   In (WriteProcessMemory process allocated function_execute_remote_attach
                          CODE_SIZE, 0) trace) \/
  (exists pipe_name a0 a1 a2 a3,
      run os (allocate_remote_argument process pipe_name a0 a1 a2 a3) s
      = (trace, out, s') /\
      In (VirtualAllocEx process NULL (Z.of_nat sizeof_EnqueueOperation)
                         MEM_COMMIT PAGE_READWRITE, allocated) trace /\
      In (WriteProcessMemory process allocated
                             (address_of (bytes_of_pointer process))
                             (Z.of_nat sizeof_pointer), 0) trace) ->
  out = Returned NULL /\
  (exists before dwSize r,
      trace = before ++ [(VirtualFreeEx process NULL dwSize MEM_RELEASE, r)]) /\
  (forall hProcess lpAddress dwSize dwFreeType r,
      In (VirtualFreeEx hProcess lpAddress dwSize dwFreeType, r) trace ->
      lpAddress = NULL /\ lpAddress <> allocated).
Proof.
  intros Hallocated [(Hrun & Halloc & Hwrite) |
                     (pipe_name & a0 & a1 & a2 & a3 & Hrun & Halloc & Hwrite)].
  - destruct (allocate_code_frees_at_NULL s s' process allocated trace out
                Hrun Halloc Hallocated Hwrite) as (Hout & (b & r & Ht) & Hfree).
    split; [exact Hout|]. split; [|exact Hfree]. exists b, CODE_SIZE, r. exact Ht.
  - destruct (allocate_remote_argument_frees_at_NULL s s' process allocated
                pipe_name a0 a1 a2 a3 trace out Hrun Halloc Hallocated Hwrite)
      as (Hout & (b & r & Ht) & Hfree).
    split; [exact Hout|]. split; [|exact Hfree].
    exists b, (Z.of_nat sizeof_EnqueueOperation), r. exact Ht.
Qed.

(** C1 (as the code behaves).  In every run of [allocate_remote_argument]
    that returns an address other than NULL, a block was built, the region
    allocated has [sizeof(EnqueueOperation)] bytes, and the single
    [WriteProcessMemory] call copies [sizeof(process)] bytes from [&process]:
    the representation of the handle, which ends before the first string
    field of a block begins and is not the representation of the block that
    was built. *)
Theorem allocate_remote_argument_copies_handle (s s' : S)
  (process allocation : Z) (pipe_name a0 a1 a2 a3 : LPCSTR)
  (trace : list (call * Z)) :
  run os (allocate_remote_argument process pipe_name a0 a1 a2 a3) s
  = (trace, Returned allocation, s') ->
  allocation <> NULL ->
  exists operation r1 r2 written,
    build_operation pipe_name a0 a1 a2 a3 = Ret operation /\
    trace = [(printf "allocate_remote_argument", r1); (fflush_stdout, r2);
             (VirtualAllocEx process NULL (Z.of_nat sizeof_EnqueueOperation)
                             MEM_COMMIT PAGE_READWRITE, allocation);
             (WriteProcessMemory process allocation
                                 (address_of (bytes_of_pointer process))
                                 (Z.of_nat sizeof_pointer), written)] /\
    (length (bytes_of_pointer process) <= offsetof_library)%nat /\
    (length (bytes_of_pointer process)
     < length (bytes_of_EnqueueOperation operation))%nat /\
    bytes_of_pointer process <> bytes_of_EnqueueOperation operation.
Proof.
  intros Hrun Hallocation.
  unfold allocate_remote_argument in Hrun.
  cbn [bind ret Monad_Prog Prog_bind invoke run] in Hrun.
  destruct (build_operation_cases pipe_name a0 a1 a2 a3) as [E | [operation E]];
    rewrite E in Hrun; cbn [Prog_bind run] in Hrun.
  { answer os. discriminate Hrun. }
  assert (Hlt : (length (bytes_of_pointer process)
                 < length (bytes_of_EnqueueOperation operation))%nat).
  { rewrite (length_bytes_of_EnqueueOperation _ _ _ _ _ _ E).
    rewrite length_bytes_of_pointer.
    unfold sizeof_EnqueueOperation, offsetof_library.
    pose proof (round_up_ge
                  (2 * sizeof_pointer + 32 + 32 + MAX_PATH + 4 * MAX_PATH)
                  sizeof_pointer).
    lia. }
  exists operation.
  answer os; cbn [bind ret Monad_Prog Prog_bind invoke run] in Hrun.
  all: answer os; cbn [bind ret Monad_Prog Prog_bind invoke run] in Hrun.
  all: answer os; injection Hrun as <- Hret <-.
  - exfalso. apply Hallocation. symmetry. exact Hret.
  - exfalso. apply Hallocation. symmetry. exact Hret.
  - subst allocation. eexists _, _, _.
    split; [exact E|]. split; [reflexivity|]. split; [|split].
    + rewrite length_bytes_of_pointer. unfold offsetof_library. lia.
    + exact Hlt.
    + intros Heq. rewrite Heq in Hlt. lia.
Qed.

End Injector.

(** C2, no rejection.  With a first argument of 300 characters, longer than
    [MAX_PATH], the function does not return its failure value before any
    call on the target process. *)
Lemma overlong_argument_not_rejected :
  ~ rejected_before_remote
      (run scripted
           (allocate_remote_argument (W:=win64) 21 (Some "pipe1"%string)
                                     (Some (xs 300)) None None None)
           [0; 0; 65536; 1]).
Proof.
  unfold rejected_before_remote. vm_compute. intros [Hout _]. discriminate.
Qed.

Lemma overlong_string_overruns_unchecked_witness :
  exists r1 r2 s',
    run scripted
        (allocate_remote_argument (W:=win64) 21 (Some "pipe1"%string)
                                  (Some (xs 300)) None None None)
        [0; 0; 65536; 1]
    = ([(printf "allocate_remote_argument", r1); (fflush_stdout, r2)],
       Undefined_behaviour, s').
Proof.
  apply (overlong_string_overruns_unchecked (W:=win64) scripted
           [0; 0; 65536; 1] 21 (Some "pipe1"%string) (Some (xs 300))
           None None None (xs 300)).
  - cbn [In]. right. left. reflexivity.
  - apply Nat.leb_le. vm_compute. reflexivity.
Defined.

(** At the failing input: [VirtualAllocEx] answers 65536, the copy fails, and
    the run of [allocate_code] ends with a release at address 0; so does the
    run of [allocate_remote_argument]. *)
Lemma copy_failure_frees_at_NULL_witness :
  run scripted (allocate_code 21) [0; 0; 65536; 0; 0]
  = ([(printf "allocate_code", 0); (fflush_stdout, 0);
      (VirtualAllocEx 21 NULL CODE_SIZE MEM_COMMIT PAGE_EXECUTE_READWRITE, 65536);
      (WriteProcessMemory 21 65536 function_execute_remote_attach CODE_SIZE, 0);
      (VirtualFreeEx 21 NULL CODE_SIZE MEM_RELEASE, 0)],
     Returned NULL, []) /\
  (forall hProcess lpAddress dwSize dwFreeType r,
      In (VirtualFreeEx hProcess lpAddress dwSize dwFreeType, r)
         (fst (fst (run scripted (allocate_code 21) [0; 0; 65536; 0; 0]))) ->
      lpAddress = NULL /\ lpAddress <> 65536) /\
  snd (fst (run scripted
                (allocate_remote_argument (W:=win64) 21 (Some "pipe1"%string)
                   (Some "a"%string) (Some "b"%string) None None)
                [0; 0; 65536; 0; 0]))
  = Returned NULL /\
  exists before r,
    fst (fst (run scripted
                  (allocate_remote_argument (W:=win64) 21 (Some "pipe1"%string)
                     (Some "a"%string) (Some "b"%string) None None)
                  [0; 0; 65536; 0; 0]))
    = before ++ [(VirtualFreeEx 21 NULL 1384 MEM_RELEASE, r)].
Proof.
  split; [reflexivity|]. split.
  - refine (proj2 (proj2 (copy_failure_frees_at_NULL (W:=win64) scripted
                            [0; 0; 65536; 0; 0] [] 21 65536 _ _ _ _))).
    + discriminate.
    + left. split; [reflexivity|]. cbn [In]. split.
      * right. right. left. reflexivity.
      * right. right. right. left. reflexivity.
  - destruct (copy_failure_frees_at_NULL (W:=win64) scripted
                [0; 0; 65536; 0; 0] [] 21 65536
                (fst (fst (run scripted
                  (allocate_remote_argument (W:=win64) 21 (Some "pipe1"%string)
                     (Some "a"%string) (Some "b"%string) None None)
                  [0; 0; 65536; 0; 0])))
                (Returned NULL))
      as (Hout & (before & dwSize & r & Htrace) & _).
    + discriminate.
    + right. exists (Some "pipe1"%string), (Some "a"%string),
        (Some "b"%string), None, None.
      split; [vm_compute; reflexivity|]. split.
      * vm_compute. right. right. left. reflexivity.
      * vm_compute. right. right. right. left. reflexivity.
    + split; [vm_compute; reflexivity|].
      exists [(printf "allocate_remote_argument", 0); (fflush_stdout, 0);
              (VirtualAllocEx 21 NULL 1384 MEM_COMMIT PAGE_READWRITE, 65536);
              (WriteProcessMemory 21 65536
                 (address_of (bytes_of_pointer (W:=win64) 21)) 8, 0)], 0.
      vm_compute. reflexivity.
Defined.

(** At the failing input: the scenario of the specification on 64-bit
    Windows, with both Win32 calls succeeding.  The 1384 bytes allocated
    receive the 8 bytes of the handle 21. *)
Lemma allocate_remote_argument_copies_handle_witness :
  run scripted
      (allocate_remote_argument (W:=win64) 21 (Some "pipe1"%string)
         (Some "a"%string) (Some "b"%string) None None)
      [0; 0; 65536; 1]
  = ([(printf "allocate_remote_argument", 0); (fflush_stdout, 0);
      (VirtualAllocEx 21 NULL 1384 MEM_COMMIT PAGE_READWRITE, 65536);
      (WriteProcessMemory 21 65536
         (address_of (map Some ["021"; "000"; "000"; "000";
                                "000"; "000"; "000"; "000"]%char))
         8, 1)],
     Returned 65536, []) /\
  bytes_of_pointer (W:=win64) 21
  <> bytes_of_EnqueueOperation (W:=win64) scenario_block.
Proof.
  split; [vm_compute; reflexivity|].
  destruct (allocate_remote_argument_copies_handle (W:=win64) scripted
              [0; 0; 65536; 1] [] 21 65536 (Some "pipe1"%string)
              (Some "a"%string) (Some "b"%string) None None _ eq_refl)
    as (operation & r1 & r2 & written & Hbuilt & _ & _ & _ & Hdiffer).
  - discriminate.
  - unfold scenario_block. rewrite Hbuilt. exact Hdiffer.
Defined.

(** C10. [pipe] is copied without a null test, the four arguments with one:
    [strcpy] from a null source is undefined, so a call with a null [pipe]
    is undefined right after [printf] and [fflush], whatever the arguments;
    the builder returns a block only for a [pipe] that is not null; a null
    argument builds the same block as the empty string, and a short [pipe]
    with four null arguments is built. *)
Theorem pipe_must_not_be_null `{W : Windows} :
  (forall dst, strcpy dst None = Undefined) /\
  (forall (S : Type) (os : call -> S -> Z * S) (s : S) (process : Z)
          (a0 a1 a2 a3 : LPCSTR),
      exists r1 r2 s',
        run os (allocate_remote_argument process None a0 a1 a2 a3) s
        = ([(printf "allocate_remote_argument", r1); (fflush_stdout, r2)],
           Undefined_behaviour, s')) /\
  (forall (pipe_name a0 a1 a2 a3 : LPCSTR) (operation : EnqueueOperation),
      build_operation pipe_name a0 a1 a2 a3 = Ret operation ->
      pipe_name <> None) /\
  (forall pipe_name a0 a1 a2 a3 : LPCSTR,
      build_operation pipe_name a0 a1 a2 a3
      = build_operation pipe_name (or_empty a0) (or_empty a1)
                        (or_empty a2) (or_empty a3)) /\
  (forall p : string,
      (length (c_str p) < MAX_PATH)%nat ->
      exists operation,
        build_operation (Some p) None None None None = Ret operation).
Proof.
  split; [reflexivity|]. split; [|split; [|split]].
  - intros S os s process a0 a1 a2 a3.
    apply run_allocate_remote_argument_undefined, build_operation_null_pipe.
  - intros pipe_name a0 a1 a2 a3 operation E ->.
    rewrite build_operation_null_pipe in E. discriminate.
  - intros pipe_name [s0|] [s1|] [s2|] [s3|]; reflexivity.
  - intros p Hp. apply build_operation_defined; [exact Hp|].
    intros a s Hin ->. cbn [In] in Hin.
    destruct Hin as [E|[E|[E|[E|[]]]]]; discriminate.
Qed.

Lemma pipe_must_not_be_null_witness :
  (exists r1 r2 s',
      run scripted
          (allocate_remote_argument (W:=win64) 21 None (Some "a"%string)
                                    (Some "b"%string) None None)
          [0; 0; 65536; 1]
      = ([(printf "allocate_remote_argument", r1); (fflush_stdout, r2)],
         Undefined_behaviour, s')) /\
  (exists operation,
      build_operation (W:=win64) (Some "pipe1"%string) None None None None
      = Ret operation).
Proof.
  destruct (pipe_must_not_be_null (W:=win64)) as (_ & Hnull & _ & _ & Hbuilt).
  split.
  - apply Hnull.
  - apply Hbuilt. apply Nat.ltb_lt. vm_compute. reflexivity.
Defined.

(** ** Runs in the reference environment *)

(** After a failed copy the region allocated by [allocate_code] is still
    allocated in the target, although the function returned NULL. *)
Example allocate_code_leaves_region :
  let '(_, out, t) := run win32 (allocate_code 21) (fresh_target true) in
  out = Returned NULL /\
  region_at t 0x10000 = Some (repeat (Some NUL) 1024).
Proof. vm_compute. split; reflexivity. Qed.

(** After a successful [allocate_remote_argument] the region in the target
    holds the bytes of the handle followed by the zeroes it was allocated
    with: read as a block, its [pipe] is the empty string and not the one
    passed. *)
Example allocate_remote_argument_leaves_zeroes :
  let '(_, out, t) :=
    run win32 (allocate_remote_argument (W:=win64) 21 (Some "pipe1"%string)
                 (Some "a"%string) (Some "b"%string) None None)
        (fresh_target false) in
  out = Returned 0x10000 /\
  region_at t 0x10000
  = Some (bytes_of_pointer (W:=win64) 21 ++ repeat (Some NUL) 1376)%list /\
  match region_at t 0x10000 with
  | Some bytes =>
      read_c_str (array_at bytes (offsetof_pipe (W:=win64)) 260) = Some []
  | None => False
  end /\
  c_str "pipe1" <> [].
Proof. vm_compute. repeat split; try reflexivity. discriminate. Qed.

(** * Further properties *)

(** ** The stub routine, in any environment *)

Section StubRuns.

Context {S : Type} (os : call -> S -> Z * S).

(** X1. When the module lookup answers NULL the stub stops there: its run
    consists of [printf], [fflush] and that lookup, so the symbol lookup
    through the second function pointer is never attempted. *)
Theorem module_failure_skips_symbol_lookup (s s' : S)
  (operation : EnqueueOperation) (trace : list (call * Z)) (out : outcome Z) :
  run os (execute_remote_attach operation) s = (trace, out, s') ->
  In (GetModuleHandle_t (GetModuleHandleA operation) (library operation), NULL)
     trace ->
  (exists r1 r2,
      trace = [(printf "execute_remote_attach", r1); (fflush_stdout, r2);
               (GetModuleHandle_t (GetModuleHandleA operation)
                                  (library operation), NULL)]) /\
  count_calls symbol_lookup trace = 0%nat.
Proof.
  intros Hrun Hfail.
  run_of Hrun execute_remote_attach os; cbn [In] in Hfail.
  - subst. split; [eexists _, _; reflexivity | reflexivity].
  - exfalso. intuition (try discriminate; congruence).
  - exfalso. intuition (try discriminate; congruence).
Qed.

(** X2. A result other than [ENQUEUE_ERROR] tells that both lookups
    succeeded and the entry point was called: the run is then the five calls
    in order, the last one the call of the address the symbol lookup
    answered, and the result is the DWORD of its answer. *)
Theorem non_sentinel_result_means_entry_called (s s' : S)
  (operation : EnqueueOperation) (trace : list (call * Z)) (result : Z) :
  run os (execute_remote_attach operation) s = (trace, Returned result, s') ->
  result <> ENQUEUE_ERROR ->
  exists r1 r2 h entry answer,
    h <> NULL /\ entry <> NULL /\ result = DWORD answer /\
    trace = [(printf "execute_remote_attach", r1); (fflush_stdout, r2);
             (GetModuleHandle_t (GetModuleHandleA operation)
                                (library operation), h);
             (GetProcAddress_t (GetProcAddress operation) h
                               (command operation), entry);
             (JVM_EnqueueOperation_t entry
                (argument_at operation 0) (argument_at operation 1)
                (argument_at operation 2) (argument_at operation 3)
                (pipe operation), answer)].
Proof.
  intros Hrun Hresult.
  unfold execute_remote_attach in Hrun.
  cbn [bind ret Monad_Prog Prog_bind invoke run] in Hrun.
  answer os; cbn [bind ret Monad_Prog Prog_bind invoke run] in Hrun.
  all: answer os; cbn [bind ret Monad_Prog Prog_bind invoke run] in Hrun.
  all: answer os; injection Hrun as <- Hret <-.
  - exfalso. apply Hresult. rewrite <- Hret. reflexivity.
  - exfalso. apply Hresult. rewrite <- Hret. reflexivity.
  - eexists _, _, _, _, _.
    refine (conj _ (conj _ (conj _ eq_refl)));
      [assumption | assumption | symmetry; exact Hret].
Qed.


End StubRuns.

Lemma module_failure_skips_symbol_lookup_witness :
  count_calls symbol_lookup
    (fst (fst (run scripted (execute_remote_attach scenario_block) [7; 0; 0])))
  = 0%nat.
Proof.
  refine (proj2 (module_failure_skips_symbol_lookup scripted [7; 0; 0] []
                   scenario_block _ _ eq_refl _)).
  cbn [In]. right. right. left. reflexivity.
Defined.

Lemma non_sentinel_result_means_entry_called_witness :
  exists r1 r2 h entry answer,
    h <> NULL /\ entry <> NULL /\ 0 = DWORD answer /\
    fst (fst (run scripted (execute_remote_attach scenario_block)
                  [21; 0; 0x7ff900000000; 0x7ff900001234; 0]))
    = [(printf "execute_remote_attach", r1); (fflush_stdout, r2);
       (GetModuleHandle_t (GetModuleHandleA scenario_block)
                          (library scenario_block), h);
       (GetProcAddress_t (GetProcAddress scenario_block) h
                         (command scenario_block), entry);
       (JVM_EnqueueOperation_t entry
          (argument_at scenario_block 0) (argument_at scenario_block 1)
          (argument_at scenario_block 2) (argument_at scenario_block 3)
          (pipe scenario_block), answer)].
Proof.
  apply (non_sentinel_result_means_entry_called scripted
           [21; 0; 0x7ff900000000; 0x7ff900001234; 0] [] scenario_block _ 0).
  - reflexivity.
  - discriminate.
Defined.

(** ** The builder and the stub together *)

Lemma length_list_ascii_of_string (s : string) :
  length (list_ascii_of_string s) = String.length s.
Proof. induction s as [|c s IH]; simpl; [reflexivity | rewrite IH; reflexivity]. Qed.

Lemma length_c_str_le (s : string) : (length (c_str s) <= String.length s)%nat.
Proof.
  induction s as [|c s IH]; simpl; [lia|].
  destruct (Ascii.eqb c NUL); simpl; lia.
Qed.

Lemma strcpy_or_empty_stored (n : nat) (a : LPCSTR) (d : list cell) :
  strcpy (uninitialized n) (or_empty a) = Ret d -> read_c_str d = Some (stored a).
Proof.
  intros E. apply strcpy_Ret in E as (s & Hs & _ & _ & ->).
  apply or_empty_Some in Hs as [[-> ->] | ->]; reflexivity.
Qed.

Lemma strcpy_stored (n : nat) (a : LPCSTR) (d : list cell) :
  strcpy (uninitialized n) a = Ret d -> read_c_str d = Some (stored a).
Proof.
  intros E. apply strcpy_Ret in E as (s & -> & _ & _ & ->). reflexivity.
Qed.

Section BuilderRuns.

Context `{W : Windows}.

(** X4. The builder returns a block exactly when [pipe] is not null and
    [pipe] and every argument that is not null are shorter than [MAX_PATH]
    up to their first terminator; for any other input its behaviour is
    undefined. *)
Theorem build_operation_domain (pipe_name a0 a1 a2 a3 : LPCSTR) :
  ((exists operation, build_operation pipe_name a0 a1 a2 a3 = Ret operation) <->
   pipe_name <> None /\ Forall fits [pipe_name; a0; a1; a2; a3]) /\
  (build_operation pipe_name a0 a1 a2 a3 = Undefined <->
   ~ (pipe_name <> None /\ Forall fits [pipe_name; a0; a1; a2; a3])).
Proof.
  assert (Hiff :
    (exists operation, build_operation pipe_name a0 a1 a2 a3 = Ret operation) <->
    pipe_name <> None /\ Forall fits [pipe_name; a0; a1; a2; a3]).
  { split.
    - intros [operation E].
      apply build_operation_Ret in E
        as (l & c & p & x0 & x1 & x2 & x3 & _ & _ & Ep & E0 & E1 & E2 & E3 & _).
      assert (Hfit : forall a d, strcpy (uninitialized MAX_PATH) (or_empty a) = Ret d ->
                                 fits a).
      { intros a d Ed s ->. cbn [or_empty] in Ed.
        apply strcpy_Ret in Ed as (s' & [= <-] & Hlt & _).
        rewrite length_uninitialized in Hlt. exact Hlt. }
      split.
      + intros ->. discriminate Ep.
      + repeat constructor; eauto.
        intros s ->. apply strcpy_Ret in Ep as (s' & [= <-] & Hlt & _).
        rewrite length_uninitialized in Hlt. exact Hlt.
    - intros [Hpipe Hall].
      destruct pipe_name as [p|]; [|contradiction Hpipe; reflexivity].
      apply build_operation_defined.
      + inversion Hall as [|? ? Hp _]; subst. apply Hp. reflexivity.
      + intros a s Hin ->.
        rewrite Forall_forall in Hall. apply (Hall (Some s)); [|reflexivity].
        right. exact Hin. }
  split; [exact Hiff|].
  destruct (build_operation_cases pipe_name a0 a1 a2 a3) as [E | [operation E]].
  - split; [|intros _; exact E].
    intros _ Hvalid. apply Hiff in Hvalid as [operation E'].
    rewrite E in E'. discriminate.
  - split.
    + intros E'. rewrite E in E'. discriminate.
    + intros Hnot. exfalso. apply Hnot, Hiff. exists operation. exact E.
Qed.

(** X5. Round trip of the builder.  For a [pipe] and arguments without
    embedded terminator and shorter than [MAX_PATH] (an argument may be
    null), a block is built, and the bytes of that block, read at the offsets
    of [pipe] and of [argument[i]], hold exactly the characters passed, the
    empty string for a null argument. *)
Theorem builder_round_trip (p : string) (a0 a1 a2 a3 : LPCSTR) :
  no_embedded_NUL p -> (String.length p < MAX_PATH)%nat ->
  (forall a s, In a [a0; a1; a2; a3] -> a = Some s ->
               no_embedded_NUL s /\ (String.length s < MAX_PATH)%nat) ->
  exists operation,
    build_operation (Some p) a0 a1 a2 a3 = Ret operation /\
    read_c_str (array_at (bytes_of_EnqueueOperation operation)
                         offsetof_pipe MAX_PATH)
    = Some (list_ascii_of_string p) /\
    forall i a, nth_error [a0; a1; a2; a3] i = Some a ->
      read_c_str (array_at (bytes_of_EnqueueOperation operation)
                           (offsetof_argument i) MAX_PATH)
      = Some (match a with
              | None => []
              | Some s => list_ascii_of_string s
              end).
Proof.
  intros Hp Lp Ha.
  destruct (build_operation_defined p a0 a1 a2 a3) as [operation E].
  { pose proof (length_c_str_le p). lia. }
  { intros a s Hin ->. destruct (Ha _ s Hin eq_refl) as [_ Ls].
    pose proof (length_c_str_le s). lia. }
  exists operation. split; [exact E|].
  destruct (built_block_round_trip p a0 a1 a2 a3 operation E) as [Rp Ra].
  split.
  - rewrite Rp, (c_str_no_embedded p Hp). reflexivity.
  - intros i a Hi. rewrite (Ra i a Hi). destruct a as [s|]; [|reflexivity].
    apply nth_error_In in Hi. destruct (Ha _ s Hi eq_refl) as [Hs _].
    rewrite (c_str_no_embedded s Hs). reflexivity.
Qed.

End BuilderRuns.

Lemma build_operation_domain_witness :
  (exists operation,
      build_operation (W:=win64) (Some "pipe1"%string) (Some "a"%string)
                      None None None = Ret operation) /\
  build_operation (W:=win64) (Some "pipe1"%string) (Some (xs 260))
                  None None None = Undefined.
Proof.
  split.
  - apply (proj1 (build_operation_domain (W:=win64) (Some "pipe1"%string)
                    (Some "a"%string) None None None)).
    split; [discriminate|].
    rewrite Forall_forall. intros a Hin s ->. cbn [In] in Hin.
    destruct Hin as [E|[E|[E|[E|[E|[]]]]]]; try discriminate;
      injection E as <-; apply Nat.ltb_lt; vm_compute; reflexivity.
  - apply (proj2 (build_operation_domain (W:=win64) (Some "pipe1"%string)
                    (Some (xs 260)) None None None)).
    intros [_ Hall]. inversion Hall as [|? ? _ Hrest]; subst.
    inversion Hrest as [|? ? Hlong _]; subst.
    specialize (Hlong (xs 260) eq_refl).
    apply Nat.ltb_lt in Hlong. vm_compute in Hlong. discriminate.
Defined.

Lemma builder_round_trip_witness :
  exists operation,
    build_operation (W:=win64) (Some "pipe1"%string) (Some "a"%string)
                    (Some "b"%string) None None = Ret operation /\
    read_c_str (array_at (bytes_of_EnqueueOperation (W:=win64) operation)
                         (offsetof_pipe (W:=win64)) 260)
    = Some ["p"; "i"; "p"; "e"; "1"]%char /\
    read_c_str (array_at (bytes_of_EnqueueOperation (W:=win64) operation)
                         (offsetof_argument (W:=win64) 1) 260)
    = Some ["b"]%char /\
    read_c_str (array_at (bytes_of_EnqueueOperation (W:=win64) operation)
                         (offsetof_argument (W:=win64) 3) 260)
    = Some [].
Proof.
  destruct (builder_round_trip (W:=win64) "pipe1" (Some "a"%string)
              (Some "b"%string) None None)
    as (operation & E & Rp & Ra).
  - repeat constructor.
  - apply Nat.ltb_lt. vm_compute. reflexivity.
  - intros a s Hin ->. cbn [In] in Hin.
    destruct Hin as [E|[E|[E|[E|[]]]]]; try discriminate; injection E as <-;
      (split; [repeat constructor | apply Nat.ltb_lt; vm_compute; reflexivity]).
  - exists operation. split; [exact E|]. split; [exact Rp|].
    split; [exact (Ra 1%nat (Some "b"%string) eq_refl)
           | exact (Ra 3%nat None eq_refl)].
Defined.

Section BuiltBlockInStub.

Context `{W : Windows} {S : Type} (os : call -> S -> Z * S).

(** X6. The stub run on a block the builder returned: the module lookup goes
    through the address of [GetModuleHandleA] in the injecting image with the
    name "jvm", the symbol lookup through that of [GetProcAddress] with the
    name "JVM_EnqueueOperation", and an entry point that is called receives
    the four arguments in their order (the empty string for a null one)
    followed by the pipe name, each up to its first terminator. *)
Theorem stub_passes_callers_strings (s s' : S)
  (pipe_name a0 a1 a2 a3 : LPCSTR) (operation : EnqueueOperation)
  (trace : list (call * Z)) (out : outcome Z) :
  build_operation pipe_name a0 a1 a2 a3 = Ret operation ->
  run os (execute_remote_attach operation) s = (trace, out, s') ->
  (forall fn name r,
      In (GetModuleHandle_t fn name, r) trace ->
      fn = kernel32_GetModuleHandleA /\
      read_c_str name = Some (list_ascii_of_string "jvm")) /\
  (forall fn h name r,
      In (GetProcAddress_t fn h name, r) trace ->
      fn = kernel32_GetProcAddress /\
      read_c_str name = Some (list_ascii_of_string "JVM_EnqueueOperation")) /\
  (forall fn x0 x1 x2 x3 x4 r,
      In (JVM_EnqueueOperation_t fn x0 x1 x2 x3 x4, r) trace ->
      map read_c_str [x0; x1; x2; x3; x4]
      = map (fun a => Some (stored a)) [a0; a1; a2; a3; pipe_name]).
Proof.
  intros E Hrun.
  apply build_operation_Ret in E
    as (l & c & p & x0 & x1 & x2 & x3 & El & Ec & Ep & E0 & E1 & E2 & E3 & ->).
  apply strcpy_stored in El, Ec, Ep.
  apply strcpy_or_empty_stored in E0, E1, E2, E3.
  unfold execute_remote_attach, argument_at in Hrun.
  cbn [GetModuleHandleA GetProcAddress library command pipe argument nth] in Hrun.
  cbn [bind ret Monad_Prog Prog_bind invoke run] in Hrun.
  answer os; cbn [bind ret Monad_Prog Prog_bind invoke run] in Hrun.
  all: answer os; cbn [bind ret Monad_Prog Prog_bind invoke run] in Hrun.
  all: answer os; injection Hrun as <- <- <-.
  all: repeat split; intros; cbn [In] in *;
    repeat match goal with
           | H : _ \/ _ |- _ => destruct H
           | H : False |- _ => destruct H
           | H : (_, _) = (_, _) |- _ => injection H as ? ?
           end;
    try discriminate; subst; try assumption; try reflexivity.
  cbn [map]. congruence.
Qed.

End BuiltBlockInStub.

Lemma stub_passes_callers_strings_witness :
  map read_c_str [argument_at scenario_block 0; argument_at scenario_block 1;
                  argument_at scenario_block 2; argument_at scenario_block 3;
                  pipe scenario_block]
  = [Some ["a"]; Some ["b"]; Some []; Some [];
     Some ["p"; "i"; "p"; "e"; "1"]]%char.
Proof.
  refine (proj2 (proj2 (stub_passes_callers_strings (W:=win64) scripted
                          [0; 0; 0x7ff900000000; 0x7ff900001234; 0] []
                          (Some "pipe1"%string) (Some "a"%string)
                          (Some "b"%string) None None scenario_block
                          _ _ _ eq_refl))
                0x7ff900001234 _ _ _ _ _ 0 _).
  - vm_compute. reflexivity.
  - cbn [In]. right. right. right. right. left. reflexivity.
Defined.

(** ** The injector, in any environment *)

Section InjectorRuns.

Context `{W : Windows} {S : Type} (os : call -> S -> Z * S).

(** X7. When [VirtualAllocEx] answers NULL, [allocate_code] returns NULL
    right away: nothing is copied and nothing is released. *)
Theorem allocate_code_allocation_failure (s s' : S) (process : Z)
  (trace : list (call * Z)) (out : outcome Z) :
  run os (allocate_code process) s = (trace, out, s') ->
  In (VirtualAllocEx process NULL CODE_SIZE MEM_COMMIT PAGE_EXECUTE_READWRITE,
      NULL) trace ->
  out = Returned NULL /\
  exists r1 r2,
    trace = [(printf "allocate_code", r1); (fflush_stdout, r2);
             (VirtualAllocEx process NULL CODE_SIZE
                             MEM_COMMIT PAGE_EXECUTE_READWRITE, NULL)].
Proof.
  intros Hrun Hfail.
  run_of Hrun allocate_code os; cbn [In] in Hfail.
  - subst. split; [reflexivity | eexists _, _; reflexivity].
  - exfalso. intuition (try discriminate; congruence).
  - exfalso. intuition (try discriminate; congruence).
Qed.

(** X8. [allocate_code] returns an address other than NULL only when the
    allocation answered that address and the copy of [CODE_SIZE] bytes from
    [execute_remote_attach] to it succeeded; the run is then those two calls
    after [printf] and [fflush], without any release. *)
Theorem allocate_code_success (s s' : S) (process address : Z)
  (trace : list (call * Z)) :
  run os (allocate_code process) s = (trace, Returned address, s') ->
  address <> NULL ->
  exists r1 r2 copied,
    copied <> 0 /\
    trace = [(printf "allocate_code", r1); (fflush_stdout, r2);
             (VirtualAllocEx process NULL CODE_SIZE
                             MEM_COMMIT PAGE_EXECUTE_READWRITE, address);
             (WriteProcessMemory process address
                                 function_execute_remote_attach CODE_SIZE,
              copied)].
Proof.
  intros Hrun Haddress.
  unfold allocate_code in Hrun.
  cbn [bind ret Monad_Prog Prog_bind invoke run] in Hrun.
  answer os; cbn [bind ret Monad_Prog Prog_bind invoke run] in Hrun.
  all: answer os; cbn [bind ret Monad_Prog Prog_bind invoke run] in Hrun.
  all: answer os; injection Hrun as <- Hret <-.
  - exfalso. apply Haddress. symmetry. exact Hret.
  - exfalso. apply Haddress. symmetry. exact Hret.
  - subst address. eexists _, _, _.
    refine (conj _ eq_refl). assumption.
Qed.

(** X9. Neither function retries: every run of [allocate_code], and every
    run of [allocate_remote_argument] on an input the builder returns a
    block for, returns and performs exactly one allocation, at most one copy
    and at most one release, and the address returned is NULL or the one the
    allocation answered. *)
Theorem injector_never_retries (s : S) (process : Z)
  (pipe_name a0 a1 a2 a3 : LPCSTR) (operation : EnqueueOperation) :
  build_operation pipe_name a0 a1 a2 a3 = Ret operation ->
  forall program,
    program = allocate_code process \/
    program = allocate_remote_argument process pipe_name a0 a1 a2 a3 ->
    exists trace address s',
      run os program s = (trace, Returned address, s') /\
      count_calls allocation_call trace = 1%nat /\
      (count_calls copy_call trace <= 1)%nat /\
      (count_calls release_call trace <= 1)%nat /\
      (address = NULL \/
       exists c, allocation_call c = true /\ In (c, address) trace).
Proof.
  intros E program [-> | ->].
  - destruct (run os (allocate_code process) s) as [[trace out] s'] eqn:Hrun.
    run_of Hrun allocate_code os; eexists _, _, _;
      (split; [reflexivity|]); cbn; repeat split; try lia;
      first [ left; reflexivity
            | right; eexists;
              split; [|right; right; left; reflexivity]; reflexivity ].
  - destruct (run os (allocate_remote_argument process pipe_name a0 a1 a2 a3) s)
      as [[trace out] s'] eqn:Hrun.
    unfold allocate_remote_argument in Hrun.
    cbn [bind ret Monad_Prog Prog_bind invoke run] in Hrun.
    rewrite E in Hrun. cbn [Prog_bind run] in Hrun.
    answer os; cbn [bind ret Monad_Prog Prog_bind invoke run] in Hrun.
    all: answer os; cbn [bind ret Monad_Prog Prog_bind invoke run] in Hrun.
    all: answer os; injection Hrun as <- <- <-; eexists _, _, _;
      (split; [reflexivity|]); cbn; repeat split; try lia;
      first [ left; reflexivity
            | right; eexists;
              split; [|right; right; left; reflexivity]; reflexivity ].
Qed.

(** X10. When [VirtualAllocEx] answers NULL, [allocate_remote_argument]
    returns NULL right away: nothing is copied and nothing is released. *)
Theorem allocate_remote_argument_allocation_failure (s s' : S) (process : Z)
  (pipe_name a0 a1 a2 a3 : LPCSTR)
  (trace : list (call * Z)) (out : outcome Z) :
  run os (allocate_remote_argument process pipe_name a0 a1 a2 a3) s
  = (trace, out, s') ->
  In (VirtualAllocEx process NULL (Z.of_nat sizeof_EnqueueOperation)
                     MEM_COMMIT PAGE_READWRITE, NULL) trace ->
  out = Returned NULL /\
  exists r1 r2,
    trace = [(printf "allocate_remote_argument", r1); (fflush_stdout, r2);
             (VirtualAllocEx process NULL (Z.of_nat sizeof_EnqueueOperation)
                             MEM_COMMIT PAGE_READWRITE, NULL)].
Proof.
  intros Hrun Hfail.
  unfold allocate_remote_argument in Hrun.
  cbn [bind ret Monad_Prog Prog_bind invoke run] in Hrun.
  destruct (build_operation_cases pipe_name a0 a1 a2 a3) as [E | [operation E]];
    rewrite E in Hrun; cbn [Prog_bind run] in Hrun.
  - answer os. injection Hrun as <- <- <-. cbn [In] in Hfail.
    exfalso. intuition discriminate.
  - answer os; cbn [bind ret Monad_Prog Prog_bind invoke run] in Hrun.
    all: answer os; cbn [bind ret Monad_Prog Prog_bind invoke run] in Hrun.
    all: answer os; injection Hrun as <- <- <-; cbn [In] in Hfail.
    + subst. split; [reflexivity | eexists _, _; reflexivity].
    + exfalso. intuition (try discriminate; congruence).
    + exfalso. intuition (try discriminate; congruence).
Qed.

(** X11. What [allocate_remote_argument] does to the target does not depend
    on the strings it is given: for one process handle and any two inputs
    the builder returns a block for, the runs are the same, call by call,
    answer by answer and in the value returned. *)
Theorem allocate_remote_argument_ignores_strings (s : S) (process : Z)
  (pipe_name a0 a1 a2 a3 pipe_name' b0 b1 b2 b3 : LPCSTR) :
  (exists operation, build_operation pipe_name a0 a1 a2 a3 = Ret operation) ->
  (exists operation, build_operation pipe_name' b0 b1 b2 b3 = Ret operation) ->
  run os (allocate_remote_argument process pipe_name a0 a1 a2 a3) s
  = run os (allocate_remote_argument process pipe_name' b0 b1 b2 b3) s.
Proof.
  intros [operation E] [operation' E'].
  unfold allocate_remote_argument.
  cbn [bind ret Monad_Prog Prog_bind invoke].
  rewrite E, E'. reflexivity.
Qed.

End InjectorRuns.

Lemma allocate_code_allocation_failure_witness :
  snd (fst (run scripted (allocate_code 21) [13; 0; 0; 1; 1])) = Returned NULL /\
  exists r1 r2,
    fst (fst (run scripted (allocate_code 21) [13; 0; 0; 1; 1]))
    = [(printf "allocate_code", r1); (fflush_stdout, r2);
       (VirtualAllocEx 21 NULL CODE_SIZE MEM_COMMIT PAGE_EXECUTE_READWRITE,
        NULL)].
Proof.
  apply (allocate_code_allocation_failure scripted [13; 0; 0; 1; 1] [1; 1]
           21 _ _ eq_refl).
  cbn [In]. right. right. left. reflexivity.
Defined.

Lemma allocate_code_success_witness :
  exists r1 r2 copied,
    copied <> 0 /\
    fst (fst (run scripted (allocate_code 21) [13; 0; 65536; 1]))
    = [(printf "allocate_code", r1); (fflush_stdout, r2);
       (VirtualAllocEx 21 NULL CODE_SIZE MEM_COMMIT PAGE_EXECUTE_READWRITE,
        65536);
       (WriteProcessMemory 21 65536 function_execute_remote_attach CODE_SIZE,
        copied)].
Proof.
  apply (allocate_code_success scripted [13; 0; 65536; 1] [] 21 65536 _).
  - reflexivity.
  - discriminate.
Defined.

Lemma injector_never_retries_witness :
  exists trace address s',
    run scripted
        (allocate_remote_argument (W:=win64) 21 (Some "pipe1"%string)
           (Some "a"%string) (Some "b"%string) None None)
        [0; 0; 65536; 0; 0]
    = (trace, Returned address, s') /\
    count_calls allocation_call trace = 1%nat /\
    (count_calls copy_call trace <= 1)%nat /\
    (count_calls release_call trace <= 1)%nat /\
    (address = NULL \/
     exists c, allocation_call c = true /\ In (c, address) trace).
Proof.
  apply (injector_never_retries (W:=win64) scripted [0; 0; 65536; 0; 0] 21
           (Some "pipe1"%string) (Some "a"%string) (Some "b"%string) None None
           scenario_block).
  - vm_compute. reflexivity.
  - right. reflexivity.
Defined.

Lemma allocate_remote_argument_allocation_failure_witness :
  snd (fst (run scripted
                (allocate_remote_argument (W:=win64) 21 (Some "pipe1"%string)
                   (Some "a"%string) (Some "b"%string) None None)
                [0; 0; 0; 1; 1]))
  = Returned NULL /\
  exists r1 r2,
    fst (fst (run scripted
                  (allocate_remote_argument (W:=win64) 21 (Some "pipe1"%string)
                     (Some "a"%string) (Some "b"%string) None None)
                  [0; 0; 0; 1; 1]))
    = [(printf "allocate_remote_argument", r1); (fflush_stdout, r2);
       (VirtualAllocEx 21 NULL 1384 MEM_COMMIT PAGE_READWRITE, NULL)].
Proof.
  apply (allocate_remote_argument_allocation_failure (W:=win64) scripted
           [0; 0; 0; 1; 1] [1; 1] 21 (Some "pipe1"%string)
           (Some "a"%string) (Some "b"%string) None None _ _ eq_refl).
  vm_compute. right. right. left. reflexivity.
Defined.

Lemma allocate_remote_argument_ignores_strings_witness :
  run scripted
      (allocate_remote_argument (W:=win64) 21 (Some "pipe1"%string)
         (Some "a"%string) (Some "b"%string) None None)
      [0; 0; 65536; 1]
  = run scripted
        (allocate_remote_argument (W:=win64) 21 (Some "another pipe"%string)
           None None (Some (xs 259)) None)
        [0; 0; 65536; 1].
Proof.
  apply (allocate_remote_argument_ignores_strings (W:=win64) scripted).
  - eexists. vm_compute. reflexivity.
  - eexists. vm_compute. reflexivity.
Defined.
